(** * Frame extractor backend: job store, upload, paginated listing, archive

    A shallow embedding of [backend/main.py], a FastAPI service that stores an
    uploaded video in a fresh job directory, runs FFmpeg on it, lists the
    extracted JPEG frames page by page and serves them as a ZIP archive.

    - The filesystem is a finite map from paths to nodes, each node keyed
      by its resolved path (relative to the working directory, or
      absolute).  The directory of a job is looked up as written, which is
      what the kernel does for a job identity that is a plain name other
      than [.] and [..].  [open] and [os.remove], which receive the file
      name the client chose, resolve [.], [..] and repeated separators when
      the path as written is not a node.  Symbolic links are not modelled.
    - Handlers are state-passing functions over a [World]: the filesystem and
      the number of UUIDs drawn so far.
    - [uuid.uuid4], the FFmpeg process, [repr] of a float and the bytes
      written by [shutil.make_archive] are external: section variables.
    - Python's [int / int] is binary64 true division; it is modelled on
      dyadic rationals, rounding half to even at 53 bits. *)

From Stdlib Require Import ZArith Lia Ascii DecimalString DecimalNat DecimalFacts.
From stdpp Require Import gmap strings list fin_maps sorting.

(** ** Python numerics used by [list_images] *)

Module PyNum.

(** A finite binary64 value [mant * 2^expo]. *)
Record pyfloat := PyFloat { mant : Z; expo : Z }.

Definition pow2 (k : Z) : Z := (2 ^ k)%Z.

(** Exponent of the unit in the last place of [a / b] for [a, b > 0]: the [e]
    with [2^52 <= a / (b * 2^e) < 2^53], clamped to the subnormal exponent. *)
Definition ulp_exponent (a b : Z) : Z :=
  let e0 := (Z.log2 a - Z.log2 b - 52)%Z in
  let below :=
    if (0 <=? e0)%Z then (a <? b * pow2 (52 + e0))%Z
    else (a * pow2 (- e0) <? b * pow2 52)%Z in
  Z.max (-1074) (if below then e0 - 1 else e0)%Z.

(** Round [n / d] to the nearest integer, ties to even. *)
Definition round_half_even (n d : Z) : Z :=
  let q := (n / d)%Z in
  let r := (n mod d)%Z in
  if (2 * r <? d)%Z then q
  else if (d <? 2 * r)%Z then (q + 1)%Z
  else if Z.even q then q else (q + 1)%Z.

Inductive arith_error := ZeroDivisionError | OverflowError.

(** [a / b] on non-negative Python ints: the correctly rounded binary64
    quotient ([long_true_divide]). *)
Definition truediv (a b : Z) : arith_error + pyfloat :=
  if (b =? 0)%Z then inl ZeroDivisionError
  else if (a =? 0)%Z then inr (PyFloat 0 0)
  else
    let e := ulp_exponent a b in
    let m :=
      if (0 <=? e)%Z then round_half_even a (b * pow2 e)
      else round_half_even (a * pow2 (- e)) b in
    if (971 <? e)%Z then inl OverflowError
    else if (pow2 53 <=? m)%Z && (e =? 971)%Z then inl OverflowError
    else inr (PyFloat m e).

(** [math.ceil] of a finite float. *)
Definition ceil (x : pyfloat) : Z :=
  if (0 <=? expo x)%Z then (mant x * pow2 (expo x))%Z
  else (- ((- mant x) / pow2 (- expo x)))%Z.

(** The mathematical ceiling of [a / b], for comparison. *)
Definition ceil_div (a b : Z) : Z := ((a + b - 1) / b)%Z.

End PyNum.

(** ** Python strings and sequences *)

(** [strip_prefix pre s] is [Some r] exactly when [s = pre ++ r]. *)
Fixpoint strip_prefix (pre s : string) : option string :=
  match pre, s with
  | EmptyString, _ => Some s
  | String c pre', String d s' =>
      if Ascii.eqb c d then strip_prefix pre' s' else None
  | String _ _, EmptyString => None
  end.

(** [s.startswith(pre)] *)
Definition startswith (s pre : string) : bool :=
  match strip_prefix pre s with Some _ => true | None => false end.

(** [s.endswith(suf)]: [suf] is one of the tails of [s]. *)
Fixpoint endswith (s suf : string) : bool :=
  if String.eqb s suf then true
  else match s with
       | EmptyString => false
       | String _ s' => endswith s' suf
       end.

(** ['/' in s] *)
Fixpoint has_sep (s : string) : bool :=
  match s with
  | EmptyString => false
  | String c s' => Ascii.eqb c "/" || has_sep s'
  end.

(** [s[:n]] for [n >= 0] *)
Fixpoint str_take (n : nat) (s : string) : string :=
  match n, s with
  | S n', String c s' => String c (str_take n' s')
  | _, _ => EmptyString
  end.

(** [l[start:stop]] with Python's treatment of negative and out-of-range
    bounds (step 1). *)
Definition py_slice {A} (l : list A) (start stop : Z) : list A :=
  let len := Z.of_nat (length l) in
  let clamp i := (if i <? 0 then Z.max 0 (i + len) else Z.min i len)%Z in
  let lo := clamp start in
  let hi := clamp stop in
  take (Z.to_nat (hi - lo)) (drop (Z.to_nat lo) l).

(** ["%06d" % n]: decimal, zero-padded to width 6. *)
Definition format_06d (n : nat) : string :=
  let digits := NilEmpty.string_of_uint (Nat.to_uint n) in
  String.concat "" (replicate (6 - String.length digits) "0") +:+ digits.

(** ** Paths *)

(** [os.path.join(a, b)] on POSIX. *)
Definition os_path_join (a b : string) : string :=
  if startswith b "/" then b
  else if String.eqb a "" || endswith a "/" then a +:+ b
  else a +:+ "/" +:+ b.

(** The intermediate directories of a path, outermost first: every non-empty
    proper prefix that is followed by a separator. *)
Fixpoint ancestors_from (seen rest : string) : list string :=
  match rest with
  | EmptyString => []
  | String c rest' =>
      (if Ascii.eqb c "/" && negb (String.eqb seen "") then [seen] else [])
      ++ ancestors_from (seen +:+ String c "") rest'
  end.

Definition ancestors (p : string) : list string := ancestors_from "" p.

(** ** The filesystem *)

Inductive node :=
  | Dir
  | File (content : list Byte.byte).

Inductive pyexn :=
  | FileNotFoundError
  | FileExistsError
  | IsADirectoryError
  | NotADirectoryError
  | ValueError
  | OSError
  | CalledProcessError (returncode : Z) (stderr : string)
  | ArithmeticError (e : PyNum.arith_error).

(** [os.path.isdir] of a path that is written as the filesystem keys it:
    without [.], [..], empty components or a trailing separator. *)
Definition isdir (fs : gmap string node) (p : string) : bool :=
  match fs !! p with Some Dir => true | _ => false end.

(** Everything below directory [d], keyed by its path relative to [d]. *)
Definition dir_contents (fs : gmap string node) (d : string) : gmap string node :=
  map_fold
    (λ k nd acc,
      match strip_prefix (d +:+ "/") k with
      | Some rel => <[rel := nd]> acc
      | None => acc
      end)
    ∅ fs.

(** An entry name: non-empty and without separator. *)
Definition entry_name (n : string) : bool :=
  negb (String.eqb n "") && negb (has_sep n).

(** [os.listdir(d)]: the names of the entries directly in [d], in the
    filesystem's own order. *)
Definition listdir (fs : gmap string node) (d : string) : list string :=
  filter (λ n, entry_name n = true) (map_to_list (dir_contents fs d)).*1.

(** One step of directory creation. [leaf] tells the requested directory
    from an intermediate one: an existing file in the way is reported as
    [FileExistsError] for the leaf, [NotADirectoryError] above it. *)
Definition ensure_dir (leaf : bool) (fs : gmap string node) (p : string)
  : pyexn + gmap string node :=
  match fs !! p with
  | None => inr (<[p := Dir]> fs)
  | Some Dir => inr fs
  | Some (File _) => inl (if leaf then FileExistsError else NotADirectoryError)
  end.

Fixpoint ensure_dirs (fs : gmap string node) (ps : list string)
  : pyexn + gmap string node :=
  match ps with
  | [] => inr fs
  | p :: ps' =>
      match ensure_dir false fs p with
      | inl e => inl e
      | inr fs' => ensure_dirs fs' ps'
      end
  end.

(** [os.makedirs(p, exist_ok=True)]: creates the missing intermediate
    directories, then the leaf; an existing leaf directory is accepted. *)
Definition makedirs (fs : gmap string node) (p : string) : pyexn + gmap string node :=
  match ensure_dirs fs (ancestors p) with
  | inl e => inl e
  | inr fs' => ensure_dir true fs' p
  end.

(** [.] and [..]: the names every directory holds for itself and for its
    parent. *)
Definition dot_name (n : string) : bool :=
  String.eqb n "." || String.eqb n "..".

(** A plain name: an entry name other than [.] and [..]; joined to a
    directory as written it gives the resolved path of that entry. *)
Definition plain_name (n : string) : bool :=
  entry_name n && negb (dot_name n).

(** The components of a path: the pieces between its separators. *)
Fixpoint components_from (cur rest : string) : list string :=
  match rest with
  | EmptyString => [cur]
  | String c rest' =>
      if Ascii.eqb c "/" then cur :: components_from "" rest'
      else components_from (cur +:+ String c "") rest'
  end.

Definition components (p : string) : list string := components_from "" p.

(** Whether the last component of a path is [.] or [..]. *)
Definition dot_final (p : string) : bool :=
  match last (components p) with
  | Some n => dot_name n
  | None => false
  end.

(** A place reached while resolving a path: the names from the starting
    point (the root for an absolute path, the working directory otherwise)
    down to it, innermost first.  A relative place may lie above the working
    directory; its names then start with [..]. *)
Definition path_of (absolute : bool) (place : list string) : string :=
  (if absolute then "/" else "") +:+ String.concat "/" (rev place).

(** What is at a place.  The starting point and everything above the
    working directory are directories. *)
Definition node_at (fs : gmap string node) (absolute : bool) (place : list string)
  : option node :=
  match place with
  | [] => Some Dir
  | n :: _ => if String.eqb n ".." then Some Dir else fs !! path_of absolute place
  end.

(** One component further: an empty component and [.] stay, [..] goes up
    (the root is its own parent), a name goes down. *)
Definition enter (absolute : bool) (place : list string) (c : string) : list string :=
  if String.eqb c "" || String.eqb c "." then place
  else if String.eqb c ".." then
    match place with
    | [] => if absolute then [] else [c]
    | n :: up => if String.eqb n ".." then c :: place else up
    end
  else c :: place.

(** Path resolution, component by component: every place a component is
    looked up in must be a directory; the place of the last component need
    not exist. *)
Fixpoint walk_from (fs : gmap string node) (absolute : bool) (place : list string)
    (comps : list string) : pyexn + list string :=
  match comps with
  | [] => inr place
  | c :: comps' =>
      match node_at fs absolute place with
      | Some Dir => walk_from fs absolute (enter absolute place c) comps'
      | Some (File _) => inl NotADirectoryError
      | None => inl FileNotFoundError
      end
  end.

Definition walk (fs : gmap string node) (p : string) : pyexn + list string :=
  walk_from fs (startswith p "/") [] (components p).

(** Paths the kernel is never asked about, or refuses: Python raises
    [ValueError] for an embedded null character, and the kernel answers
    [ENAMETOOLONG] (an [OSError]) for a path of [PATH_MAX] bytes or more or
    a component of more than [NAME_MAX] bytes (the limits of Linux and of
    its usual filesystems). *)
Fixpoint has_nul (s : string) : bool :=
  match s with
  | EmptyString => false
  | String c s' => Ascii.eqb c Ascii.zero || has_nul s'
  end.

Definition NAME_MAX : nat := 255.
Definition PATH_MAX : nat := 4096.

Definition name_too_long (p : string) : bool :=
  (PATH_MAX <=? String.length p)
  || existsb (λ c, NAME_MAX <? String.length c) (components p).

(** [with open(p, "wb") as f: f.write(data)].  A path that ends in a
    separator, in [.] or in [..] names a directory.  A path that is a node as
    written is that node; a new file is created as written when the
    directories on the way exist as written, and at the place the path
    resolves to otherwise. *)
Definition write_file (fs : gmap string node) (p : string) (data : list Byte.byte)
  : pyexn + gmap string node :=
  if String.eqb p "" then inl FileNotFoundError
  else if endswith p "/" then inl IsADirectoryError
  else
    match fs !! p with
    | Some Dir => inl IsADirectoryError
    | Some (File _) =>
        if forallb (isdir fs) (ancestors p) then inr (<[p := File data]> fs)
        else inl FileNotFoundError
    | None =>
        if has_nul p then inl ValueError
        else if name_too_long p then inl OSError
        else if dot_final p then
          match walk fs p with
          | inl e => inl e
          | inr _ => inl IsADirectoryError
          end
        else if forallb (isdir fs) (ancestors p) then inr (<[p := File data]> fs)
        else
          let absolute := startswith p "/" in
          match walk fs p with
          | inl e => inl e
          | inr place =>
              match node_at fs absolute place with
              | Some Dir => inl IsADirectoryError
              | _ => inr (<[path_of absolute place := File data]> fs)
              end
          end
    end.

(** [os.remove(p)]: of the node the path is as written, or else of the one
    it resolves to. *)
Definition os_remove (fs : gmap string node) (p : string) : pyexn + gmap string node :=
  match fs !! p with
  | Some (File _) => inr (delete p fs)
  | Some Dir => inl IsADirectoryError
  | None =>
      let absolute := startswith p "/" in
      match walk fs p with
      | inl e => inl e
      | inr place =>
          match node_at fs absolute place with
          | Some (File _) => inr (delete (path_of absolute place) fs)
          | Some Dir => inl IsADirectoryError
          | None => inl FileNotFoundError
          end
      end
  end.

(** ** Requests, responses and the world *)

Record World := mkWorld {
  fs : gmap string node;
  uuid_draws : nat;
}.

(** What a FastAPI handler produces: a returned body, a raised
    [HTTPException], a request rejected by parameter validation, or an
    exception that escapes the handler (answered with status 500). *)
Inductive outcome (A : Type) :=
  | Returned (body : A)
  | HTTPException (status_code : Z) (detail : string)
  | RequestValidationError
  | Escaped (e : pyexn).
Arguments Returned {A} body.
Arguments HTTPException {A} status_code detail.
Arguments RequestValidationError {A}.
Arguments Escaped {A} e.

(** The HTTP status of an outcome whose returned body is sent as it is
    (upload and listing). *)
Definition status_of {A} (o : outcome A) : Z :=
  match o with
  | Returned _ => 200
  | HTTPException c _ => c
  | RequestValidationError => 422
  | Escaped _ => 500
  end.

(** The body of [GET /api/images/{job_id}]. *)
Record listing := mkListing {
  images : list string;
  page : Z;
  total_pages : Z;
  total : Z;
  page_size : Z;
}.

(** What [download_zip] returns. *)
Inductive download :=
  | JSONResponse (error : string) (status_code : Z)
  | FileResponse (path filename media_type : string) (content : option (list Byte.byte)).


(** The result of one run of the external tool: exit status, captured
    standard error, and the frames it emitted before exiting. *)
Record tool_run := mkToolRun {
  returncode : Z;
  stderr : string;
  frames : list (list Byte.byte);
}.

Definition OUTPUT_ROOT : string := "output".

(** [total_pages = max(1, math.ceil(total / limit))] *)
Definition total_pages_of (total limit : Z) : PyNum.arith_error + Z :=
  match PyNum.truediv total limit with
  | inl e => inl e
  | inr q => inr (Z.max 1 (PyNum.ceil q))
  end.

(** [f"/output/{job_id}/{name}"] *)
Definition image_url (job_id name : string) : string :=
  "/output/" +:+ job_id +:+ "/" +:+ name.

(** [f for f in os.listdir(job_dir) if f.endswith(".jpg")] *)
Definition jpg_names (fs : gmap string node) (job_dir : string) : list string :=
  filter (λ f, endswith f ".jpg" = true) (listdir fs job_dir).

(** [sorted(f for f in os.listdir(job_dir) if f.endswith(".jpg"))].
    [String.le] compares byte by byte, which on UTF-8 names is Python's
    order by code point; with a total antisymmetric order every sorting
    algorithm returns the same list. *)
Definition all_images_of (fs : gmap string node) (job_dir : string) : list string :=
  merge_sort String.le (jpg_names fs job_dir).

(** [GET /api/images/{job_id}?page=..&limit=..], with the bounds declared by
    [Query(1, ge=1)] and [Query(50, ge=1, le=500)] checked first. *)
Definition list_images (w : World) (job_id : string) (page limit : Z)
  : outcome listing * World :=
  if (page <? 1)%Z || (limit <? 1)%Z || (500 <? limit)%Z
  then (RequestValidationError, w)
  else
    let job_dir := os_path_join OUTPUT_ROOT job_id in
    if negb (isdir (fs w) job_dir) then (HTTPException 404 "job not found", w)
    else
      let all_images := all_images_of (fs w) job_dir in
      let total := Z.of_nat (length all_images) in
      match total_pages_of total limit with
      | inl e => (Escaped (ArithmeticError e), w)
      | inr total_pages =>
          let start := ((page - 1) * limit)%Z in
          let stop := ((page - 1) * limit + limit)%Z in
          let urls := image_url job_id <$> py_slice all_images start stop in
          (Returned (mkListing urls page total_pages total limit), w)
      end.

(** Where the extraction tool stores its [n]-th frame:
    [dest_dir/frame-%06d.jpg]. *)
Definition frame_path (dest_dir : string) (n : nat) : string :=
  os_path_join dest_dir ("frame-" +:+ format_06d n +:+ ".jpg").

Fixpoint store_frames (fs : gmap string node) (dest_dir : string) (n : nat)
    (fr : list (list Byte.byte)) : gmap string node :=
  match fr with
  | [] => fs
  | f :: fr' => store_frames (<[frame_path dest_dir n := File f]> fs) dest_dir (S n) fr'
  end.

(** ** Form fields of the upload request *)

(** A string field declared [Form(default)]: FastAPI hands the handler the
    default when the field is absent and also when it is sent empty. *)
Definition form_str (default : string) (sent : option string) : string :=
  match sent with
  | Some s => if String.eqb s "" then default else s
  | None => default
  end.

(** A float field declared [Form(default)]: absent or sent empty, sent with
    text that is no float, or sent with a float. *)
Inductive form_float :=
  | FloatAbsent
  | FloatInvalid
  | FloatSent (x : PyNum.pyfloat).

Definition form_float_ok (sent : form_float) : bool :=
  match sent with
  | FloatInvalid => false
  | _ => true
  end.

Definition form_float_value (default : PyNum.pyfloat) (sent : form_float)
  : PyNum.pyfloat :=
  match sent with
  | FloatSent x => x
  | _ => default
  end.

(** [0.3], the default of [threshold], as a binary64 value. *)
Definition DEFAULT_THRESHOLD : PyNum.pyfloat := PyNum.PyFloat 5404319552844595 (-54).

Section Backend.

(** [uuid.uuid4().hex] at the [n]-th draw. *)
Variable uuid4_hex : nat → string.

(** The FFmpeg executable: for an argument vector and the filesystem it
    reads, the run it performs. *)
Variable ffmpeg : list string → gmap string node → tool_run.

(** [repr] of a float, as an f-string interpolates it. *)
Variable float_repr : PyNum.pyfloat → string.

(** The bytes of the ZIP file [shutil.make_archive] writes for a tree. *)
Variable make_zipfile : gmap string node → list Byte.byte.

(** The [-vf] argument chosen by [ffmpeg_extract]. *)
Definition video_filter (mode : string) (threshold : PyNum.pyfloat) : string :=
  if String.eqb mode "all" then "fps=30"
  else "select='gt(scene," +:+ float_repr threshold +:+ ")',showinfo".

(** The argument vector built by [ffmpeg_extract]. *)
Definition ffmpeg_cmd (src_path dest_dir mode : string) (threshold : PyNum.pyfloat)
  : list string :=
  [ "ffmpeg"; "-i"; src_path; "-vf"; video_filter mode threshold;
    "-vsync"; "vfr"; "-qscale:v"; "2";
    os_path_join dest_dir "frame-%06d.jpg" ].

(** [subprocess.run(cmd, capture_output=True, check=True)] for the FFmpeg
    command: the frames emitted are on disk whatever the exit status, and a
    non-zero status raises [CalledProcessError].  The executable is taken to
    be installed, and its captured standard error to be ASCII text. *)
Definition subprocess_run (fs : gmap string node) (cmd : list string) (dest_dir : string)
  : (pyexn + unit) * gmap string node :=
  let r := ffmpeg cmd fs in
  let fs' := store_frames fs dest_dir 1 (frames r) in
  if (returncode r =? 0)%Z then (inr (), fs')
  else (inl (CalledProcessError (returncode r) (stderr r)), fs').

Definition ffmpeg_extract (fs : gmap string node) (src_path dest_dir mode : string)
    (threshold : PyNum.pyfloat) : (pyexn + unit) * gmap string node :=
  match makedirs fs dest_dir with
  | inl e => (inl e, fs)
  | inr fs1 => subprocess_run fs1 (ffmpeg_cmd src_path dest_dir mode threshold) dest_dir
  end.

(** [shutil.make_archive(base_name, "zip", root_dir)] *)
Definition make_archive (fs : gmap string node) (base_name root_dir : string)
  : pyexn + (string * gmap string node) :=
  let zip_path := base_name +:+ ".zip" in
  match fs !! zip_path with
  | Some Dir => inl IsADirectoryError
  | _ => inr (zip_path, <[zip_path := File (make_zipfile (dir_contents fs root_dir))]> fs)
  end.

Definition make_zip (fs : gmap string node) (job_dir : string)
  : pyexn + (string * gmap string node) :=
  make_archive fs job_dir job_dir.

Definition file_content (fs : gmap string node) (p : string) : option (list Byte.byte) :=
  match fs !! p with Some (File c) => Some c | _ => None end.

(** The body of [upload_video], on the arguments FastAPI passes it. *)
Definition upload_video (w : World) (filename : string) (payload : list Byte.byte)
    (mode : string) (threshold : PyNum.pyfloat) : outcome string * World :=
  if negb (String.eqb mode "scene" || String.eqb mode "all")
  then (HTTPException 400 "mode must be 'scene' or 'all'", w)
  else
    let job_id := uuid4_hex (uuid_draws w) in
    let draws := S (uuid_draws w) in
    let job_dir := os_path_join OUTPUT_ROOT job_id in
    match makedirs (fs w) job_dir with
    | inl e => (Escaped e, mkWorld (fs w) draws)
    | inr fs1 =>
        let temp_path := os_path_join job_dir filename in
        match write_file fs1 temp_path payload with
        | inl e => (Escaped e, mkWorld fs1 draws)
        | inr fs2 =>
            (* try: *)
            let '(r, fs3) := ffmpeg_extract fs2 temp_path job_dir mode threshold in
            (* finally: *)
            match os_remove fs3 temp_path with
            | inl e => (Escaped e, mkWorld fs3 draws)
            | inr fs4 =>
                match r with
                | inr _ => (Returned job_id, mkWorld fs4 draws)
                | inl (CalledProcessError _ err) =>
                    (HTTPException 500 ("ffmpeg failed: " +:+ str_take 200 err),
                     mkWorld fs4 draws)
                | inl e => (Escaped e, mkWorld fs4 draws)
                end
            end
        end
    end.

(** [POST /api/upload]: the multipart form is read into the parameters
    declared [file = File(...)], [mode = Form("scene")] and
    [threshold = Form(0.3)], then [upload_video] runs.  A request without
    the file part, or with a threshold that is no float, is rejected before
    the handler is entered. *)
Definition post_upload (w : World) (file : option (string * list Byte.byte))
    (mode : option string) (threshold : form_float) : outcome string * World :=
  match file with
  | None => (RequestValidationError, w)
  | Some (filename, payload) =>
      match threshold with
      | FloatInvalid => (RequestValidationError, w)
      | _ =>
          upload_video w filename payload (form_str "scene" mode)
            (form_float_value DEFAULT_THRESHOLD threshold)
      end
  end.

(** [GET /api/download/{job_id}] *)
Definition download_zip (w : World) (job_id : string) : outcome download * World :=
  let job_dir := os_path_join OUTPUT_ROOT job_id in
  if negb (isdir (fs w) job_dir)
  then (Returned (JSONResponse "job not found" 404), w)
  else
    match make_zip (fs w) job_dir with
    | inl e => (Escaped e, w)
    | inr (zip_path, fs') =>
        (Returned (FileResponse zip_path (job_id +:+ ".zip") "application/zip"
                     (file_content fs' zip_path)),
         mkWorld fs' (uuid_draws w))
    end.

End Backend.

(** ** Views used to state properties of several requests *)

(** The image list of a listing answer; empty when the request failed. *)
Definition page_images (o : outcome listing) : list string :=
  match o with
  | Returned r => images r
  | _ => []
  end.

(** The file name of the [n]-th frame, [frame-%06d.jpg]. *)
Definition frame_name (n : nat) : string :=
  "frame-" +:+ format_06d n +:+ ".jpg".

(** Reading a string of decimal digits: whether it is one, and its value
    (with [acc] the value of the digits read so far). *)
Fixpoint all_digits (s : string) : bool :=
  match s with
  | EmptyString => true
  | String c s' =>
      match Ascii.is_nat c with
      | Some _ => all_digits s'
      | None => false
      end
  end.

(** The padding of [format_06d]. *)
Definition zeros (k : nat) : string := String.concat "" (replicate k "0").

Fixpoint dval_acc (s : string) (acc : nat) : nat :=
  match s with
  | EmptyString => acc
  | String c s' => dval_acc s' (10 * acc + default 0 (Ascii.is_nat c))
  end.

(** ** Sample data *)

Definition sample_job : string := "0123456789abcdef0123456789abcdef".
Definition sample_uuid (n : nat) : string := sample_job.
Definition sample_repr (x : PyNum.pyfloat) : string := "0.3".
Definition sample_zip (tree : gmap string node) : list Byte.byte :=
  flat_map (λ kv, match kv.2 with File c => c | Dir => [] end) (map_to_list tree).

(** A tool run that emits one frame and then fails. *)
Definition failing_tool (cmd : list string) (fs : gmap string node) : tool_run :=
  mkToolRun 1 "Conversion failed!" [[Byte.xff; Byte.xd8]].

(** A tool run that emits one frame and succeeds. *)
Definition one_frame_tool (cmd : list string) (fs : gmap string node) : tool_run :=
  mkToolRun 0 "" [[Byte.xff; Byte.xd8]].

(** A tool run that emits three frames and succeeds. *)
Definition three_frame_tool (cmd : list string) (fs : gmap string node) : tool_run :=
  mkToolRun 0 "" [[Byte.x01]; [Byte.x02]; [Byte.x03]].

(** The output root beside a directory holding an unrelated file. *)
Definition server_world : World :=
  mkWorld {[ "output" := Dir; "/srv" := Dir; "/srv/keep.db" := File [Byte.x2a] ]} 0.

(** Only the output root exists. *)
Definition empty_world : World := mkWorld {[ "output" := Dir ]} 0.

(** The default threshold [0.3] as a binary64 value. *)
Definition sample_threshold : PyNum.pyfloat := PyNum.PyFloat 5404319552844595 (-54).

Definition sample_job_dir : string := "output/0123456789abcdef0123456789abcdef".

(** [empty_world] after the job directory is created, and after the
    upload [clip.mp4] is stored in it. *)
Definition sample_fs1 : gmap string node :=
  <[ sample_job_dir := Dir ]> (fs empty_world).
Definition sample_fs2 : gmap string node :=
  <[ sample_job_dir +:+ "/clip.mp4" := File [Byte.x00] ]> sample_fs1.

(** A finished job with ten frames. *)
Definition ten_frames_world : World :=
  mkWorld
    (store_frames {[ "output" := Dir; "output/job10" := Dir ]} "output/job10" 1
       (replicate 10 [Byte.xff]))
    1.

(** A job directory holding two frames, a stray text file and a
    subdirectory. *)
Definition mixed_world : World :=
  mkWorld
    {[ "output" := Dir;
       "output/mixed" := Dir;
       "output/mixed/frame-000002.jpg" := File [Byte.x02];
       "output/mixed/notes.txt" := File [Byte.x03];
       "output/mixed/frame-000001.jpg" := File [Byte.x01];
       "output/mixed/sub" := Dir;
       "output/mixed/sub/deep.jpg" := File [Byte.x04] ]}
    1.

(** ** Strings and paths *)

Lemma string_app_cons c a b : String c a +:+ b = String c (a +:+ b).
Proof. done. Qed.

Lemma string_app_nil_l b : "" +:+ b = b.
Proof. done. Qed.

Lemma strip_prefix_app pre r : strip_prefix pre (pre +:+ r) = Some r.
Proof.
  induction pre as [|c pre IH]; [done|].
  rewrite string_app_cons. cbn. by rewrite Ascii.eqb_refl.
Qed.

Lemma strip_prefix_Some pre s r : strip_prefix pre s = Some r → s = pre +:+ r.
Proof.
  revert s. induction pre as [|c pre IH]; intros s H.
  - by destruct s; simplify_eq/=.
  - destruct s as [|d s]; [done|]. cbn in H.
    destruct (Ascii.eqb_spec c d) as [->|]; [|done].
    rewrite string_app_cons. f_equal. by apply IH.
Qed.

Lemma strip_prefix_app_app p a b :
  strip_prefix (p +:+ a) (p +:+ b) = strip_prefix a b.
Proof.
  induction p as [|c p IH]; [done|].
  rewrite !string_app_cons. cbn. by rewrite Ascii.eqb_refl.
Qed.

Lemma string_app_length a b :
  String.length (a +:+ b) = String.length a + String.length b.
Proof.
  induction a as [|c a IH]; [done|].
  rewrite string_app_cons. cbn. by rewrite IH.
Qed.

Lemma string_app_assoc a b c : (a +:+ b) +:+ c = a +:+ (b +:+ c).
Proof.
  induction a as [|x a IH]; [done|].
  rewrite !string_app_cons. by rewrite IH.
Qed.

Lemma string_app_nil_r a : a +:+ "" = a.
Proof.
  induction a as [|c a IH]; [done|]. by rewrite string_app_cons, IH.
Qed.

Lemma has_sep_app a b : has_sep (a +:+ b) = has_sep a || has_sep b.
Proof.
  induction a as [|c a IH]; [done|].
  rewrite string_app_cons. cbn. rewrite IH. by rewrite orb_assoc.
Qed.

Lemma endswith_unfold s suf :
  endswith s suf =
    if String.eqb s suf then true
    else match s with
         | EmptyString => false
         | String _ s' => endswith s' suf
         end.
Proof. by destruct s. Qed.

(** [endswith] is the suffix test. *)
Lemma endswith_spec s suf : endswith s suf = true ↔ ∃ p, s = p +:+ suf.
Proof.
  split.
  - induction s as [|c s IH]; rewrite endswith_unfold.
    + destruct (String.eqb_spec "" suf) as [<-|]; [by exists ""|done].
    + destruct (String.eqb_spec (String c s) suf) as [<-|]; [by exists ""|].
      intros [p ->]%IH. by exists (String c p).
  - intros [p ->]. induction p as [|c p IH].
    + rewrite string_app_nil_l, endswith_unfold. by rewrite String.eqb_refl.
    + rewrite string_app_cons, endswith_unfold, IH. by case_match.
Qed.

Lemma os_path_join_relative a b :
  startswith b "/" = false →
  os_path_join a b = a +:+ b ∨ os_path_join a b = a +:+ "/" +:+ b.
Proof. intros H. unfold os_path_join. rewrite H. case_match; auto. Qed.

Lemma os_path_join_length a b :
  startswith b "/" = false →
  String.length a + String.length b ≤ String.length (os_path_join a b).
Proof.
  intros [-> | ->]%(os_path_join_relative a); rewrite !string_app_length; cbn; lia.
Qed.

Lemma ancestors_from_length seen rest a :
  a ∈ ancestors_from seen rest →
  String.length seen ≤ String.length a < String.length seen + String.length rest.
Proof.
  revert seen. induction rest as [|c rest IH]; intros seen; cbn.
  - by intros ?%elem_of_nil.
  - rewrite elem_of_app. intros [H|H].
    + case_match; [|by apply elem_of_nil in H].
      apply list_elem_of_singleton in H as ->. lia.
    + apply IH in H. rewrite string_app_length in H. cbn in H. lia.
Qed.

Lemma ancestors_length p a :
  a ∈ ancestors p → String.length a < String.length p.
Proof. intros H%ancestors_from_length. cbn in H. lia. Qed.

Lemma ancestors_from_app seen a b :
  ancestors_from seen (a +:+ b)
  = ancestors_from seen a ++ ancestors_from (seen +:+ a) b.
Proof.
  revert seen. induction a as [|c a IH]; intros seen.
  - by rewrite string_app_nil_l, string_app_nil_r.
  - rewrite string_app_cons. cbn [ancestors_from]. rewrite IH.
    rewrite string_app_assoc, string_app_cons, string_app_nil_l.
    by rewrite app_assoc.
Qed.

Lemma ancestors_from_no_sep seen n : has_sep n = false → ancestors_from seen n = [].
Proof.
  revert seen. induction n as [|c n IH]; intros seen Hn; [done|].
  cbn in Hn. apply orb_false_iff in Hn as [Hc Hn].
  cbn [ancestors_from]. rewrite Hc. cbn. by apply IH.
Qed.

(** The directories on the way to an entry of [d] are those on the way to
    [d], and [d]. *)
Lemma ancestors_child d n :
  d ≠ "" → has_sep n = false → ancestors (d +:+ "/" +:+ n) = ancestors d ++ [d].
Proof.
  intros Hd Hn. unfold ancestors.
  rewrite ancestors_from_app, string_app_nil_l. f_equal.
  rewrite string_app_cons, string_app_nil_l. cbn [ancestors_from].
  rewrite ancestors_from_no_sep by done.
  change (Ascii.eqb "/" "/") with true.
  destruct (String.eqb_spec d "") as [|_]; [done|]. done.
Qed.

Lemma has_sep_startswith s : has_sep s = false → startswith s "/" = false.
Proof.
  intros Hs. unfold startswith.
  destruct (strip_prefix "/" s) as [r|] eqn:Hp; [|done].
  apply strip_prefix_Some in Hp as ->. by rewrite has_sep_app in Hs.
Qed.

Lemma entry_name_inv n : entry_name n = true → n ≠ "" ∧ has_sep n = false.
Proof.
  unfold entry_name. intros [H1 H2]%andb_true_iff.
  split; [by destruct (String.eqb_spec n "")|by destruct (has_sep n)].
Qed.

Lemma os_path_join_output j :
  startswith j "/" = false → os_path_join OUTPUT_ROOT j = "output/" +:+ j.
Proof. intros H. unfold os_path_join. by rewrite H. Qed.





Lemma frame_path_length d n : String.length d < String.length (frame_path d n).
Proof.
  unfold frame_path.
  pose proof (os_path_join_length d ("frame-" +:+ format_06d n +:+ ".jpg") eq_refl) as H.
  rewrite string_app_length in H. cbn in H. lia.
Qed.

Lemma image_url_inj job a b : image_url job a = image_url job b → a = b.
Proof.
  unfold image_url. intros H.
  by repeat apply (inj (String.app _)) in H.
Qed.

(** ** The filesystem *)

Lemma dir_contents_lookup (fs : gmap string node) d rel :
  dir_contents fs d !! rel = fs !! (d +:+ "/" +:+ rel).
Proof.
  unfold dir_contents. revert rel.
  apply (map_fold_weak_ind (λ acc m, ∀ rel, acc !! rel = m !! (d +:+ "/" +:+ rel))).
  - intros rel. by rewrite !lookup_empty.
  - intros k nd m acc Hk IH rel.
    destruct (strip_prefix (d +:+ "/") k) as [r|] eqn:Hp.
    + apply strip_prefix_Some in Hp. rewrite string_app_assoc in Hp. subst k.
      destruct (decide (r = rel)) as [->|Hne].
      * by rewrite !lookup_insert_eq.
      * rewrite !lookup_insert_ne; [done| |done].
        intros Heq. by do 2 apply (inj (String.app _)) in Heq.
    + rewrite lookup_insert_ne; [done|].
      intros ->. by rewrite <- string_app_assoc, strip_prefix_app in Hp.
Qed.

(** A change outside directory [d] does not change what [d] holds. *)
Lemma dir_contents_insert_outside (fs : gmap string node) d k nd :
  strip_prefix (d +:+ "/") k = None →
  dir_contents (<[k := nd]> fs) d = dir_contents fs d.
Proof.
  intros Hk. apply map_eq. intros rel. rewrite !dir_contents_lookup.
  apply lookup_insert_ne. intros ->.
  by rewrite <- string_app_assoc, strip_prefix_app in Hk.
Qed.

Lemma elem_of_listdir (fs : gmap string node) d n :
  n ∈ listdir fs d ↔ entry_name n = true ∧ is_Some (fs !! (d +:+ "/" +:+ n)).
Proof.
  unfold listdir. rewrite list_elem_of_filter, list_elem_of_fmap.
  rewrite <- dir_contents_lookup. split.
  - intros [? [[k nd] [-> H%elem_of_map_to_list]]]. eauto.
  - intros [? [nd H]]. split; [done|].
    exists (n, nd). split; [done|]. by apply elem_of_map_to_list.
Qed.

Lemma NoDup_listdir (fs : gmap string node) d : NoDup (listdir fs d).
Proof. apply NoDup_filter, NoDup_fst_map_to_list. Qed.

Lemma ensure_dirs_ok fs ps fs' :
  ensure_dirs fs ps = inr fs' →
  (∀ p, p ∈ ps → fs' !! p = Some Dir) ∧
  (∀ k, fs' !! k = fs !! k ∨ (k ∈ ps ∧ fs !! k = None ∧ fs' !! k = Some Dir)).
Proof.
  revert fs. induction ps as [|p ps IH]; intros fs H; simplify_eq/=.
  { split; [by intros ? ?%elem_of_nil|auto]. }
  unfold ensure_dir in H.
  destruct (fs !! p) as [[|c]|] eqn:Hp; [| done |].
  - destruct (IH _ H) as [Hdirs Hkeep]. split.
    + intros q [->|?]%elem_of_cons; [|by auto].
      destruct (Hkeep p) as [->|(_ & ? & _)]; congruence.
    + intros k. destruct (Hkeep k) as [?|(? & ? & ?)]; [by left|].
      right. by rewrite elem_of_cons; auto.
  - destruct (IH _ H) as [Hdirs Hkeep]. split.
    + intros q [->|?]%elem_of_cons; [|by auto].
      destruct (Hkeep p) as [->|(_ & Hn & _)]; [by rewrite lookup_insert_eq|].
      by rewrite lookup_insert_eq in Hn.
    + intros k. destruct (Hkeep k) as [Hk|(? & Hn & ?)].
      * destruct (decide (k = p)) as [->|Hne].
        -- right. rewrite Hk, lookup_insert_eq, elem_of_cons. auto.
        -- left. by rewrite Hk, lookup_insert_ne.
      * destruct (decide (k = p)) as [->|Hne]; [by rewrite lookup_insert_eq in Hn|].
        rewrite lookup_insert_ne in Hn by done.
        right. rewrite elem_of_cons. auto.
Qed.

Lemma ensure_dirs_present fs ps :
  (∀ p, p ∈ ps → fs !! p = Some Dir) → ensure_dirs fs ps = inr fs.
Proof.
  induction ps as [|p ps IH]; intros H; [done|]. cbn.
  unfold ensure_dir. rewrite (H p) by (rewrite elem_of_cons; auto).
  apply IH. intros q ?. apply H. rewrite elem_of_cons. auto.
Qed.

(** After [makedirs] the leaf and every intermediate directory exist, and
    nothing that existed before has changed. *)
Lemma makedirs_ok fs p fs' :
  makedirs fs p = inr fs' →
  fs' !! p = Some Dir ∧
  (∀ a, a ∈ ancestors p → fs' !! a = Some Dir) ∧
  (∀ k, fs' !! k = fs !! k ∨ (fs !! k = None ∧ fs' !! k = Some Dir)).
Proof.
  unfold makedirs. destruct (ensure_dirs fs (ancestors p)) as [|fs1] eqn:H1; [done|].
  destruct (ensure_dirs_ok _ _ _ H1) as [Hdirs Hkeep].
  unfold ensure_dir. destruct (fs1 !! p) as [[|c]|] eqn:Hp; intros; simplify_eq.
  - split_and!; [done|done|]. intros k. destruct (Hkeep k) as [?|(_ & ? & ?)]; auto.
  - split_and!.
    + by rewrite lookup_insert_eq.
    + intros a Ha. rewrite lookup_insert_ne; [by auto|].
      intros ->. apply ancestors_length in Ha. lia.
    + intros k. destruct (decide (k = p)) as [->|Hne].
      * right. rewrite lookup_insert_eq. split; [|done].
        destruct (Hkeep p) as [<-|(_ & ? & ?)]; congruence.
      * rewrite lookup_insert_ne by done.
        destruct (Hkeep k) as [?|(_ & ? & ?)]; auto.
Qed.

Lemma makedirs_present fs p :
  fs !! p = Some Dir → (∀ a, a ∈ ancestors p → fs !! a = Some Dir) →
  makedirs fs p = inr fs.
Proof.
  intros Hp Ha. unfold makedirs. rewrite ensure_dirs_present by done.
  unfold ensure_dir. by rewrite Hp.
Qed.

Lemma store_frames_lookup_other fs d n fr k :
  (∀ i, k ≠ frame_path d i) → store_frames fs d n fr !! k = fs !! k.
Proof.
  intros Hk. revert fs n. induction fr as [|f fr IH]; intros fs n; [done|].
  cbn. rewrite IH. by apply lookup_insert_ne.
Qed.

Lemma store_frames_keeps_dir fs d n fr k :
  String.length k ≤ String.length d → store_frames fs d n fr !! k = fs !! k.
Proof.
  intros Hk. apply store_frames_lookup_other. intros i ->.
  pose proof (frame_path_length d i). lia.
Qed.

Lemma store_frames_keeps_file fs d n fr k c :
  fs !! k = Some (File c) → ∃ c', store_frames fs d n fr !! k = Some (File c').
Proof.
  revert fs n c. induction fr as [|f fr IH]; intros fs n c Hk; [by eauto|].
  cbn. destruct (decide (k = frame_path d n)) as [->|Hne].
  - apply (IH _ _ f). by rewrite lookup_insert_eq.
  - apply (IH _ _ c). by rewrite lookup_insert_ne.
Qed.

(** ** Arithmetic of the page count *)

Section numeric_facts.
Import PyNum.
Local Open Scope Z_scope.

Lemma round_half_even_bounds n d :
  0 < d → n / d ≤ round_half_even n d ≤ n / d + 1.
Proof.
  intros Hd. unfold round_half_even.
  repeat case_match; lia.
Qed.

Lemma round_half_even_exact n d :
  0 < d → n mod d = 0 → round_half_even n d = n / d.
Proof.
  intros Hd Hr. unfold round_half_even. rewrite Hr.
  case_match; [done|]. lia.
Qed.

Lemma ulp_exponent_small a b :
  0 < a < 2 ^ 52 → 1 ≤ b ≤ 500 →
  ulp_exponent a b < 0 ∧ b < pow2 (- ulp_exponent a b).
Proof.
  intros Ha Hb. unfold ulp_exponent, pow2.
  assert (Z.log2 a < 52) by (apply Z.log2_lt_pow2; lia).
  assert (0 ≤ Z.log2 a) by apply Z.log2_nonneg.
  assert (0 ≤ Z.log2 b) by apply Z.log2_nonneg.
  assert (b < 2 ^ (Z.log2 b + 1)).
  { destruct (Z.log2_spec b) as [_ ?]; [lia|]. by rewrite Z.add_1_r. }
  set (e0 := Z.log2 a - Z.log2 b - 52).
  set (below := if 0 <=? e0 then _ else _).
  set (e := Z.max (-1074) (if below then e0 - 1 else e0)).
  assert (e < 0) by (subst e; destruct below; lia).
  split; [done|].
  destruct (decide (e = -1074)) as [->|Hne].
  - change (- -1074) with 1074. assert (2 ^ 9 ≤ 2 ^ 1074).
    { apply Z.pow_le_mono_r; lia. }
    change (2 ^ 9) with 512 in *. lia.
  - assert (Z.log2 b + 1 ≤ - e) by (subst e; destruct below; lia).
    assert (2 ^ (Z.log2 b + 1) ≤ 2 ^ (- e)).
    { apply Z.pow_le_mono_r; lia. }
    lia.
Qed.

(** Below [2^52] entries the binary64 quotient has the ceiling of the exact
    quotient: the rounding error is under one unit in the last place, which
    is then smaller than [1 / limit]. *)
Lemma truediv_ceil total limit :
  0 ≤ total < 2 ^ 52 → 1 ≤ limit ≤ 500 →
  ∃ q, truediv total limit = inr q ∧ ceil q = ceil_div total limit.
Proof.
  intros Ht Hl. unfold truediv.
  destruct (Z.eqb_spec limit 0) as [|_]; [lia|].
  destruct (Z.eqb_spec total 0) as [->|Hnz].
  { eexists; split; [done|]. unfold ceil, ceil_div; simpl.
    rewrite Z.mul_0_l. symmetry. apply Z.div_small. lia. }
  destruct (ulp_exponent_small total limit) as [He HP]; [lia..|].
  set (e := ulp_exponent total limit) in *.
  destruct (Z.leb_spec 0 e) as [|_]; [lia|].
  destruct (Z.ltb_spec 971 e) as [|_]; [lia|].
  destruct (Z.eqb_spec e 971) as [|_]; [lia|].
  rewrite andb_false_r.
  eexists; split; [done|]. unfold ceil; simpl.
  destruct (Z.leb_spec 0 e) as [|_]; [lia|].
  set (P := pow2 (- e)) in *.
  assert (0 < P) by (apply Z.pow_pos_nonneg; lia).
  set (m := round_half_even (total * P) limit).
  unfold ceil_div.
  pose proof (Z.div_mod total limit ltac:(lia)) as Hdm.
  pose proof (Z.mod_pos_bound total limit ltac:(lia)) as Hr.
  set (k := total / limit) in *. set (r := total mod limit) in *.
  assert (total * P = (k * P) * limit + r * P) as Hn by lia.
  destruct (decide (r = 0)) as [Hr0|Hr0].
  - assert (m = k * P) as ->.
    { subst m. rewrite round_half_even_exact; [|lia|].
      - rewrite Hn, Hr0. rewrite Z.mul_0_l, Z.add_0_r.
        apply Z.div_mul; lia.
      - rewrite Hn, Hr0, Z.mul_0_l, Z.add_0_r. apply Z.mod_mul; lia. }
    rewrite <- Z.mul_opp_l, Z.div_mul by lia.
    replace (total + limit - 1) with (k * limit + (limit - 1)) by lia.
    rewrite Z.div_add_l by lia. rewrite Z.div_small by lia. lia.
  - assert (total * P / limit = k * P + r * P / limit) as Hq.
    { rewrite Hn, Z.add_comm, Z.div_add by lia. lia. }
    assert (1 ≤ r * P / limit).
    { apply Z.div_le_lower_bound; nia. }
    assert (r * P / limit < P).
    { apply Z.div_lt_upper_bound; nia. }
    pose proof (round_half_even_bounds (total * P) limit ltac:(lia)) as Hm.
    fold m in Hm. rewrite Hq in Hm.
    assert (- m / P = - (k + 1)) as ->.
    { symmetry. apply Z.div_unique with (r := (k + 1) * P - m); nia. }
    replace (total + limit - 1) with ((k + 1) * limit + (r - 1)) by lia.
    rewrite Z.div_add_l by lia. rewrite Z.div_small by lia. lia.
Qed.

Lemma total_pages_of_small total limit :
  0 ≤ total < 2 ^ 52 → 1 ≤ limit ≤ 500 →
  total_pages_of total limit = inr (Z.max 1 (ceil_div total limit)).
Proof.
  intros Ht Hl. unfold total_pages_of.
  destruct (truediv_ceil total limit Ht Hl) as (q & -> & ->). done.
Qed.

(** [ceil_div] is the ceiling of the quotient. *)
Lemma ceil_div_spec total limit :
  0 < limit → (ceil_div total limit - 1) * limit < total ≤ ceil_div total limit * limit.
Proof.
  intros Hl. unfold ceil_div.
  pose proof (Z.div_mod (total + limit - 1) limit ltac:(lia)).
  pose proof (Z.mod_pos_bound (total + limit - 1) limit ltac:(lia)).
  nia.
Qed.

Lemma ceil_div_zero limit : 0 < limit → ceil_div 0 limit = 0.
Proof. intros. unfold ceil_div. apply Z.div_small. lia. Qed.

Lemma ceil_div_pos total limit : 0 < total → 0 < limit → 1 ≤ ceil_div total limit.
Proof. intros. pose proof (ceil_div_spec total limit). nia. Qed.

End numeric_facts.

(** Two quotients as CPython prints them: [1 / 3] is
    [0x1.5555555555555p-2] and [10 / 50] is [0x1.999999999999ap-3]. *)
Example truediv_one_third :
  PyNum.truediv 1 3 = inr (PyNum.PyFloat 0x15555555555555 (-54)).
Proof. reflexivity. Qed.

Example truediv_one_fifth :
  PyNum.truediv 10 50 = inr (PyNum.PyFloat 0x1999999999999A (-55)).
Proof. reflexivity. Qed.

(** Why the bound: from about [2^54] entries on the quotient can round
    down to an integer, and its ceiling is then one page short. *)
Example total_pages_of_huge :
  total_pages_of (2 ^ 45 * 500 + 1) 500 = inr (2 ^ 45)%Z
  ∧ PyNum.ceil_div (2 ^ 45 * 500 + 1) 500 = (2 ^ 45 + 1)%Z.
Proof. vm_compute. done. Qed.

(** ** Slices and the sorted image list *)

Lemma py_slice_nonneg {A} (l : list A) (start stop : Z) :
  (0 ≤ start ≤ stop)%Z →
  py_slice l start stop = take (Z.to_nat (stop - start)) (drop (Z.to_nat start) l).
Proof.
  intros H. unfold py_slice.
  destruct (Z.ltb_spec start 0) as [|_]; [lia|].
  destruct (Z.ltb_spec stop 0) as [|_]; [lia|].
  destruct (decide (Z.of_nat (length l) ≤ start)%Z) as [Hge|Hlt].
  - rewrite (Z.min_r start) by lia. rewrite !drop_ge by lia. by rewrite !take_nil.
  - rewrite (Z.min_l start) by lia.
    destruct (decide (stop ≤ Z.of_nat (length l))%Z).
    + by rewrite (Z.min_l stop) by lia.
    + rewrite (Z.min_r stop) by lia.
      rewrite !take_ge; [done|rewrite length_drop; lia..].
Qed.

Lemma all_images_of_perm fs d : all_images_of fs d ≡ₚ jpg_names fs d.
Proof. apply merge_sort_Permutation. Qed.

Lemma all_images_of_sorted fs d : StronglySorted String.le (all_images_of fs d).
Proof. apply StronglySorted_merge_sort; apply _. Qed.

Lemma all_images_of_length fs d :
  length (all_images_of fs d) = length (jpg_names fs d).
Proof. apply Permutation_length, all_images_of_perm. Qed.

Lemma elem_of_jpg_names fs d n :
  n ∈ jpg_names fs d ↔
  endswith n ".jpg" = true ∧ entry_name n = true ∧ is_Some (fs !! (d +:+ "/" +:+ n)).
Proof. unfold jpg_names. by rewrite list_elem_of_filter, elem_of_listdir. Qed.

Lemma NoDup_jpg_names fs d : NoDup (jpg_names fs d).
Proof. apply NoDup_filter, NoDup_listdir. Qed.

(** The sorted image list only depends on which [.jpg] names exist. *)
Lemma all_images_of_ext fs1 fs2 d :
  (∀ n, endswith n ".jpg" = true →
        is_Some (fs1 !! (d +:+ "/" +:+ n)) ↔ is_Some (fs2 !! (d +:+ "/" +:+ n))) →
  all_images_of fs1 d = all_images_of fs2 d.
Proof.
  intros H. apply (Sorted_unique String.le).
  - apply Sorted_merge_sort; apply _.
  - apply Sorted_merge_sort; apply _.
  - rewrite !all_images_of_perm.
    apply NoDup_Permutation; [apply NoDup_jpg_names..|].
    intros n. rewrite !elem_of_jpg_names.
    split; intros (Hj & ? & ?); (split_and!; [done..|by apply (H n Hj)]).
Qed.

(** What [list_images] answers for an existing job and valid paging. *)
Lemma list_images_returns w job_id page limit :
  let job_dir := os_path_join OUTPUT_ROOT job_id in
  let sorted := all_images_of (fs w) job_dir in
  let n := Z.of_nat (length sorted) in
  (1 ≤ page)%Z → (1 ≤ limit ≤ 500)%Z →
  isdir (fs w) job_dir = true →
  (n < 2 ^ 52)%Z →
  list_images w job_id page limit =
    (Returned
       (mkListing
          (image_url job_id <$>
             take (Z.to_nat limit) (drop (Z.to_nat ((page - 1) * limit)) sorted))
          page (Z.max 1 (PyNum.ceil_div n limit)) n limit),
     w).
Proof.
  intros job_dir sorted n Hp Hl Hd Hn. unfold list_images.
  destruct (Z.ltb_spec page 1) as [|_]; [lia|].
  destruct (Z.ltb_spec limit 1) as [|_]; [lia|].
  destruct (Z.ltb_spec 500 limit) as [|_]; [lia|]. cbn [orb].
  fold job_dir. rewrite Hd. cbn [negb]. fold sorted. fold n.
  rewrite total_pages_of_small by lia.
  rewrite py_slice_nonneg by nia.
  by replace ((page - 1) * limit + limit - (page - 1) * limit)%Z with limit by lia.
Qed.

Lemma entry_path_neq_dir d n : d +:+ "/" +:+ n ≠ d.
Proof.
  intros H. apply (f_equal String.length) in H.
  rewrite !string_app_length in H. cbn in H. lia.
Qed.

(** ** The listing endpoint *)

(** C1. For an existing job, a page number at least 1 and a page size
    between 1 and 500, the listing reports as [total] the number of images
    in the job directory and as [total_pages] the ceiling of
    [total / page_size], except that it reports 1 page when there is no
    image.  (The count is taken below [2^52], where binary64 division is
    exact enough.) *)
Theorem list_images_total_pages w job_id page limit :
  let job_dir := os_path_join OUTPUT_ROOT job_id in
  let count := Z.of_nat (length (jpg_names (fs w) job_dir)) in
  isdir (fs w) job_dir = true →
  (1 ≤ page)%Z → (1 ≤ limit ≤ 500)%Z → (count < 2 ^ 52)%Z →
  ∃ r, list_images w job_id page limit = (Returned r, w)
    ∧ total r = count
    ∧ total_pages r = (if (count =? 0)%Z then 1 else PyNum.ceil_div count limit)%Z
    ∧ (count = 0 → total_pages r = 1)%Z
    ∧ (0 < count → (total_pages r - 1) * limit < count ≤ total_pages r * limit)%Z.
Proof.
  intros job_dir count Hd Hp Hl Hn.
  pose proof (all_images_of_length (fs w) job_dir) as Hlen.
  eexists. split.
  { apply list_images_returns; [done..|]. fold job_dir. rewrite Hlen. done. }
  cbn. fold job_dir. rewrite Hlen. fold count.
  split; [done|].
  destruct (Z.eqb_spec count 0) as [->|Hnz].
  - rewrite ceil_div_zero by lia. split_and!; [done|done|lia].
  - assert (0 < count)%Z by lia.
    pose proof (ceil_div_pos count limit ltac:(done) ltac:(lia)).
    pose proof (ceil_div_spec count limit ltac:(lia)).
    rewrite Z.max_r by lia. split_and!; [done|lia|done].
Qed.

Lemma list_images_total_pages_witness :
  ∃ r, list_images ten_frames_world "job10" 2 3 = (Returned r, ten_frames_world)
    ∧ total r = 10%Z
    ∧ total_pages r = 4%Z
    ∧ (10 = 0 → total_pages r = 1)%Z
    ∧ (0 < 10 → (total_pages r - 1) * 3 < 10 ≤ total_pages r * 3)%Z.
Proof.
  apply (list_images_total_pages ten_frames_world "job10" 2 3);
    [vm_compute; reflexivity | lia | lia | vm_compute; reflexivity].
Defined.

(** C2. For an existing job and a page number beyond [total_pages], the
    listing succeeds with an empty image list and still reports the correct
    [total] and [total_pages]; ten images, page 3, page size 50 give an
    empty list, [total = 10] and [total_pages = 1].  (Image count below
    [2^52], as for C1.) *)
Theorem list_images_beyond_last_page w job_id page limit :
  let job_dir := os_path_join OUTPUT_ROOT job_id in
  let count := Z.of_nat (length (jpg_names (fs w) job_dir)) in
  let pages := Z.max 1 (PyNum.ceil_div count limit) in
  isdir (fs w) job_dir = true →
  (1 ≤ limit ≤ 500)%Z → (count < 2 ^ 52)%Z →
  (pages < page)%Z →
  list_images w job_id page limit = (Returned (mkListing [] page pages count limit), w).
Proof.
  intros job_dir count pages Hd Hl Hn Hp.
  pose proof (all_images_of_length (fs w) job_dir) as Hlen.
  pose proof (ceil_div_spec count limit ltac:(lia)) as Hc.
  rewrite list_images_returns; [|lia|done|done|fold job_dir; by rewrite Hlen].
  fold job_dir. rewrite Hlen. fold count. fold pages.
  rewrite drop_ge; [by rewrite take_nil|].
  rewrite Hlen. subst pages. nia.
Qed.

Lemma list_images_beyond_last_page_witness :
  list_images ten_frames_world "job10" 3 50
  = (Returned (mkListing [] 3 1 10 50), ten_frames_world).
Proof.
  apply (list_images_beyond_last_page ten_frames_world "job10" 3 50);
    [vm_compute; reflexivity | lia | vm_compute; reflexivity | vm_compute; reflexivity].
Defined.

(** C4. For an existing job the listing takes the image files of the job
    directory in lexicographic order of their names and returns the
    contiguous run of at most [page_size] of them that starts at index
    [(page - 1) * page_size], each as [/output/{job_id}/{filename}].
    (Image count below [2^52], as for C1.) *)
Theorem list_images_page_slice w job_id page_no limit :
  let job_dir := os_path_join OUTPUT_ROOT job_id in
  let start := Z.to_nat ((page_no - 1) * limit) in
  isdir (fs w) job_dir = true →
  (1 ≤ page_no)%Z → (1 ≤ limit ≤ 500)%Z →
  (Z.of_nat (length (jpg_names (fs w) job_dir)) < 2 ^ 52)%Z →
  ∃ sorted r,
    StronglySorted String.le sorted
    ∧ sorted ≡ₚ filter (λ f, endswith f ".jpg" = true) (listdir (fs w) job_dir)
    ∧ list_images w job_id page_no limit = (Returned r, w)
    ∧ images r = (λ name, "/output/" +:+ job_id +:+ "/" +:+ name)
                   <$> take (Z.to_nat limit) (drop start sorted)
    ∧ length (images r) ≤ Z.to_nat limit
    ∧ (∀ i, i < Z.to_nat limit →
            images r !! i = image_url job_id <$> sorted !! (start + i))
    ∧ page r = page_no ∧ page_size r = limit.
Proof.
  intros job_dir start Hd Hp Hl Hn.
  pose proof (all_images_of_length (fs w) job_dir) as Hlen.
  exists (all_images_of (fs w) job_dir). eexists. split_and!.
  - apply all_images_of_sorted.
  - apply all_images_of_perm.
  - apply list_images_returns; [done..|]. fold job_dir. by rewrite Hlen.
  - done.
  - cbn. rewrite length_fmap, length_take. lia.
  - intros i Hi. cbn. fold job_dir. fold start.
    by rewrite list_lookup_fmap, lookup_take_lt, lookup_drop.
  - done.
  - done.
Qed.

Lemma list_images_page_slice_witness :
  ∃ sorted r,
    StronglySorted String.le sorted
    ∧ sorted ≡ₚ filter (λ f, endswith f ".jpg" = true) (listdir (fs mixed_world) "output/mixed")
    ∧ list_images mixed_world "mixed" 2 1 = (Returned r, mixed_world)
    ∧ images r = (λ name, "/output/" +:+ "mixed" +:+ "/" +:+ name)
                   <$> take 1 (drop 1 sorted)
    ∧ length (images r) ≤ 1
    ∧ (∀ i, i < 1 → images r !! i = image_url "mixed" <$> sorted !! (1 + i))
    ∧ page r = 2%Z ∧ page_size r = 1%Z.
Proof.
  apply (list_images_page_slice mixed_world "mixed" 2 1);
    [vm_compute; reflexivity | lia | lia | vm_compute; reflexivity].
Defined.

(** C10. For an existing job the listing counts and returns only entries
    whose name ends in [.jpg]: every returned URL names such an entry, no
    other name is ever returned, and removing any other entry from the job
    directory changes nothing in the answer, [total] and [total_pages]
    included.  (Image count below [2^52], as for C1.) *)
Theorem list_images_only_jpg w job_id page limit :
  let job_dir := os_path_join OUTPUT_ROOT job_id in
  isdir (fs w) job_dir = true →
  (1 ≤ page)%Z → (1 ≤ limit ≤ 500)%Z →
  (Z.of_nat (length (jpg_names (fs w) job_dir)) < 2 ^ 52)%Z →
  ∃ r, list_images w job_id page limit = (Returned r, w)
    ∧ total r = Z.of_nat (length (filter (λ f, endswith f ".jpg" = true)
                                    (listdir (fs w) job_dir)))
    ∧ (∀ u, u ∈ images r →
         ∃ n, u = image_url job_id n ∧ n ∈ listdir (fs w) job_dir
              ∧ endswith n ".jpg" = true)
    ∧ (∀ n, endswith n ".jpg" = false → image_url job_id n ∉ images r)
    ∧ (∀ n, endswith n ".jpg" = false →
         let w' := mkWorld (delete (job_dir +:+ "/" +:+ n) (fs w)) (uuid_draws w) in
         list_images w' job_id page limit = (Returned r, w')).
Proof.
  intros job_dir Hd Hp Hl Hn.
  pose proof (all_images_of_length (fs w) job_dir) as Hlen.
  assert (∀ u, u ∈ image_url job_id <$>
                 take (Z.to_nat limit)
                   (drop (Z.to_nat ((page - 1) * limit)) (all_images_of (fs w) job_dir)) →
          ∃ n, u = image_url job_id n ∧ n ∈ listdir (fs w) job_dir
               ∧ endswith n ".jpg" = true) as Hurls.
  { intros u (n & -> & Hin)%list_elem_of_fmap. exists n. split; [done|].
    apply subseteq_take, subseteq_drop in Hin.
    rewrite all_images_of_perm in Hin.
    by apply list_elem_of_filter in Hin as [? ?]. }
  eexists. split_and!.
  - apply list_images_returns; [done..|]. fold job_dir. by rewrite Hlen.
  - cbn. fold job_dir. by rewrite Hlen.
  - exact Hurls.
  - intros n Hn' Hin. apply Hurls in Hin as (n' & Heq & _ & Hjpg).
    apply image_url_inj in Heq as ->. congruence.
  - intros n Hn' w'.
    assert (all_images_of (fs w') job_dir = all_images_of (fs w) job_dir) as Hsame.
    { apply all_images_of_ext. intros x Hx. cbn.
      rewrite lookup_delete_ne; [done|].
      intros Heq. do 2 apply (inj (String.app _)) in Heq. congruence. }
    rewrite list_images_returns; [|done|done| |].
    + fold job_dir. by rewrite Hsame.
    + cbn. unfold isdir. rewrite lookup_delete_ne; [exact Hd|].
      apply entry_path_neq_dir.
    + fold job_dir. by rewrite Hsame, Hlen.
Qed.

Lemma list_images_only_jpg_witness :
  ∃ r, list_images mixed_world "mixed" 1 50 = (Returned r, mixed_world)
    ∧ total r = Z.of_nat (length (filter (λ f, endswith f ".jpg" = true)
                                    (listdir (fs mixed_world) "output/mixed")))
    ∧ (∀ u, u ∈ images r →
         ∃ n, u = image_url "mixed" n ∧ n ∈ listdir (fs mixed_world) "output/mixed"
              ∧ endswith n ".jpg" = true)
    ∧ (∀ n, endswith n ".jpg" = false → image_url "mixed" n ∉ images r)
    ∧ (∀ n, endswith n ".jpg" = false →
         let w' := mkWorld (delete ("output/mixed" +:+ "/" +:+ n) (fs mixed_world))
                     (uuid_draws mixed_world) in
         list_images w' "mixed" 1 50 = (Returned r, w')).
Proof.
  apply (list_images_only_jpg mixed_world "mixed" 1 50);
    [vm_compute; reflexivity | lia | lia | vm_compute; reflexivity].
Defined.

(** The listing of the mixed directory, evaluated. *)
Example list_images_mixed :
  fst (list_images mixed_world "mixed" 1 50)
  = Returned (mkListing
                [ "/output/mixed/frame-000001.jpg"; "/output/mixed/frame-000002.jpg" ]
                1 1 2 50).
Proof. vm_compute. reflexivity. Qed.

(** ** Upload, extraction and download *)

Section BackendFacts.

Variable uuid4_hex : nat → string.
Variable ffmpeg : list string → gmap string node → tool_run.
Variable float_repr : PyNum.pyfloat → string.
Variable make_zipfile : gmap string node → list Byte.byte.

(** A file written where the directories on the way exist as written is
    stored at the path as written. *)
Lemma write_file_ok fs p data fs' :
  forallb (isdir fs) (ancestors p) = true →
  write_file fs p data = inr fs' →
  fs !! p ≠ Some Dir ∧ fs' = <[p := File data]> fs.
Proof.
  unfold write_file. intros Hanc H.
  destruct (String.eqb p ""); [done|].
  destruct (endswith p "/"); [done|].
  rewrite Hanc in H.
  destruct (fs !! p) as [[|c]|]; [done|by simplify_eq|].
  destruct (has_nul p); [done|]. destruct (name_too_long p); [done|].
  destruct (dot_final p); [by destruct (walk fs p)|by simplify_eq].
Qed.

(** The directories on the way to an entry of an existing directory. *)
Lemma child_ancestors_present (fs : gmap string node) d n :
  d ≠ "" → has_sep n = false →
  fs !! d = Some Dir → (∀ a, a ∈ ancestors d → fs !! a = Some Dir) →
  forallb (isdir fs) (ancestors (d +:+ "/" +:+ n)) = true.
Proof.
  intros Hd Hn Hdir Hanc. rewrite ancestors_child by done.
  apply forallb_forall. intros a Ha. apply list_elem_of_In in Ha.
  unfold isdir. apply elem_of_app in Ha as [Ha|Ha%list_elem_of_singleton].
  - by rewrite (Hanc _ Ha).
  - subst a. by rewrite Hdir.
Qed.

(** What [upload_video] does once the source file is stored (at its path
    as written): it runs the tool, removes the source file, and answers by
    the tool's exit status. *)
Lemma upload_video_after_store w filename payload mode threshold fs1 fs2 :
  let job_id := uuid4_hex (uuid_draws w) in
  let job_dir := os_path_join OUTPUT_ROOT job_id in
  let temp_path := os_path_join job_dir filename in
  let run := ffmpeg (ffmpeg_cmd float_repr temp_path job_dir mode threshold) fs2 in
  let fs3 := store_frames fs2 job_dir 1 (frames run) in
  String.eqb mode "scene" || String.eqb mode "all" = true →
  makedirs (fs w) job_dir = inr fs1 →
  forallb (isdir fs1) (ancestors temp_path) = true →
  write_file fs1 temp_path payload = inr fs2 →
  upload_video uuid4_hex ffmpeg float_repr w filename payload mode threshold =
    (if (returncode run =? 0)%Z then Returned job_id
     else HTTPException 500 ("ffmpeg failed: " +:+ str_take 200 (stderr run)),
     mkWorld (delete temp_path fs3) (S (uuid_draws w)))
  ∧ fs1 !! job_dir = Some Dir
  ∧ temp_path ≠ job_dir
  ∧ fs2 = <[temp_path := File payload]> fs1.
Proof.
  intros job_id job_dir temp_path run fs3 Hmode Hmk Hlit Hwr.
  destruct (makedirs_ok _ _ _ Hmk) as (Hdir & Hanc & _).
  destruct (write_file_ok _ _ _ _ Hlit Hwr) as [Hnd Hfs2].
  assert (temp_path ≠ job_dir) as Hne by congruence.
  split_and!; [|done..].
  unfold upload_video. rewrite Hmode. cbn [negb].
  fold job_id. fold job_dir. rewrite Hmk. fold temp_path. rewrite Hwr.
  subst fs2.
  unfold ffmpeg_extract. rewrite makedirs_present; cycle 1.
  { by rewrite lookup_insert_ne. }
  { intros a Ha. rewrite lookup_insert_ne; [by auto|].
    intros <-. by rewrite (Hanc _ Ha) in Hnd. }
  unfold subprocess_run. fold run. fold fs3.
  destruct (store_frames_keeps_file (<[temp_path := File payload]> fs1)
              job_dir 1 (frames run) temp_path payload) as [c Hc].
  { by rewrite lookup_insert_eq. }
  fold fs3 in Hc.
  destruct (returncode run =? 0)%Z; unfold os_remove; by rewrite Hc.
Qed.

(** Cleanup: after an upload that reached the extraction step the source
    file is gone, whatever the tool's exit status, and every other path is
    as the tool left it. *)
Lemma upload_video_cleanup w filename payload mode threshold fs1 fs2 :
  let job_id := uuid4_hex (uuid_draws w) in
  let job_dir := os_path_join OUTPUT_ROOT job_id in
  let temp_path := os_path_join job_dir filename in
  let run := ffmpeg (ffmpeg_cmd float_repr temp_path job_dir mode threshold) fs2 in
  let fs3 := store_frames fs2 job_dir 1 (frames run) in
  let w' := snd (upload_video uuid4_hex ffmpeg float_repr w filename payload mode threshold) in
  String.eqb mode "scene" || String.eqb mode "all" = true →
  makedirs (fs w) job_dir = inr fs1 →
  forallb (isdir fs1) (ancestors temp_path) = true →
  write_file fs1 temp_path payload = inr fs2 →
  fs w' !! temp_path = None
  ∧ (∀ k, k ≠ temp_path → fs w' !! k = fs3 !! k)
  ∧ (∀ n, frame_path job_dir n ≠ temp_path →
          fs w' !! frame_path job_dir n = fs3 !! frame_path job_dir n).
Proof.
  intros job_id job_dir temp_path run fs3 w' Hmode Hmk Hlit Hwr.
  destruct (upload_video_after_store w filename payload mode threshold fs1 fs2
              Hmode Hmk Hlit Hwr) as (Hup & _ & _ & _).
  subst w'. rewrite Hup. cbn. split_and!.
  - apply lookup_delete_eq.
  - intros k Hk. by apply lookup_delete_ne.
  - intros n Hn. by apply lookup_delete_ne.
Qed.


(** The mode test of [upload_video]: the handler answers 400 exactly when
    the mode it is passed is neither [scene] nor [all], and then returns the
    world as it was. *)
Lemma upload_video_mode_check w filename payload mode threshold :
  let up := upload_video uuid4_hex ffmpeg float_repr w filename payload mode threshold in
  (status_of (fst up) = 400%Z ↔ mode ≠ "scene" ∧ mode ≠ "all")
  ∧ (fst up = HTTPException 400 "mode must be 'scene' or 'all'"
     ↔ mode ≠ "scene" ∧ mode ≠ "all")
  ∧ (mode ≠ "scene" ∧ mode ≠ "all" → snd up = w).
Proof.
  intros up. subst up. unfold upload_video.
  destruct (String.eqb_spec mode "scene") as [Hs|Hs];
    destruct (String.eqb_spec mode "all") as [Ha|Ha]; cbn [orb negb].
  4: { cbn. by split_and!. }
  all: split_and!; [| |by intros [? ?]].
  all: split; [|by intros [? ?]].
  all: intros H; exfalso; revert H.
  all: repeat case_match; cbn; done.
Qed.

Lemma form_float_cases (t : form_float) : t = FloatInvalid ∨ t ≠ FloatInvalid.
Proof. destruct t; auto. Qed.

Lemma form_str_sent default sent m :
  form_str default sent = m →
  (sent = Some m ∧ m ≠ "") ∨ (m = default ∧ (sent = None ∨ sent = Some "")).
Proof.
  unfold form_str. destruct sent as [s|]; [|by auto].
  destruct (String.eqb_spec s "") as [->|Hs]; intros <-; auto.
Qed.

(** C6 (as amended). An upload request is answered 400 exactly when its
    form is accepted (the file part is there and the threshold, if sent, is
    a float) and a mode is sent that is not empty and is neither [scene]
    nor [all]; an absent or empty mode stands for [scene].  A request
    answered 400 draws no job identity and leaves the filesystem as it
    was; a request whose form is not accepted is answered 422. *)
Theorem post_upload_invalid_mode_iff w file mode threshold :
  let up := post_upload uuid4_hex ffmpeg float_repr w file mode threshold in
  let accepted := is_Some file ∧ threshold ≠ FloatInvalid in
  let refused := ∃ m, mode = Some m ∧ m ≠ "" ∧ m ≠ "scene" ∧ m ≠ "all" in
  (status_of (fst up) = 400%Z ↔ accepted ∧ refused)
  ∧ (fst up = HTTPException 400 "mode must be 'scene' or 'all'" ↔ accepted ∧ refused)
  ∧ (status_of (fst up) = 400%Z → snd up = w)
  ∧ (mode = None ∨ mode = Some "" →
     ∀ filename payload, file = Some (filename, payload) → threshold ≠ FloatInvalid →
       up = upload_video uuid4_hex ffmpeg float_repr w filename payload "scene"
              (form_float_value DEFAULT_THRESHOLD threshold))
  ∧ (file = None ∨ threshold = FloatInvalid → up = (RequestValidationError, w)).
Proof.
  intros up accepted refused.
  assert (∀ filename payload, file = Some (filename, payload) →
            threshold ≠ FloatInvalid →
            up = upload_video uuid4_hex ffmpeg float_repr w filename payload
                   (form_str "scene" mode)
                   (form_float_value DEFAULT_THRESHOLD threshold)) as Hup.
  { intros filename payload -> Hthr. subst up. unfold post_upload.
    by destruct threshold. }
  assert (refused ↔ form_str "scene" mode ≠ "scene" ∧ form_str "scene" mode ≠ "all")
    as Href.
  { subst refused. split.
    - intros (m & -> & Hm & Hs & Ha). unfold form_str.
      by destruct (String.eqb_spec m "").
    - intros [Hs Ha].
      destruct (form_str_sent "scene" mode _ eq_refl) as [[Hm Hne]|[Hm _]]; [|done].
      by eexists. }
  assert (status_of (fst up) = 400%Z ↔ accepted ∧ refused) as Hstatus.
  { destruct file as [[filename payload]|]; cycle 1.
    { subst up accepted. cbn. split; [done|]. by intros [[[? ?] _] _]. }
    destruct (form_float_cases threshold) as [->|Hthr].
    { subst up accepted. cbn. split; [done|]. by intros [[_ ?] _]. }
    rewrite (Hup _ _ eq_refl Hthr), Href.
    pose proof (upload_video_mode_check w filename payload (form_str "scene" mode)
                  (form_float_value DEFAULT_THRESHOLD threshold)) as (H1 & _ & _).
    cbn zeta in H1. rewrite H1. subst accepted. split; [|by intros [_ ?]].
    intros ?. split; [|done]. split; [by eexists|done]. }
  split_and!; [done| | | |].
  4: { subst up. unfold post_upload.
       destruct file as [[filename payload]|]; intros [?| ->]; done. }
  - rewrite <- Hstatus. split; [by intros ->|].
    intros H400. destruct file as [[filename payload]|]; [|done].
    destruct (form_float_cases threshold) as [->|Hthr]; [done|].
    rewrite (Hup _ _ eq_refl Hthr) in H400 |- *.
    pose proof (upload_video_mode_check w filename payload (form_str "scene" mode)
                  (form_float_value DEFAULT_THRESHOLD threshold)) as (H1 & H2 & _).
    cbn zeta in H1, H2. by apply H2, H1.
  - intros H400. destruct file as [[filename payload]|]; [|done].
    destruct (form_float_cases threshold) as [->|Hthr]; [done|].
    rewrite (Hup _ _ eq_refl Hthr) in H400 |- *.
    pose proof (upload_video_mode_check w filename payload (form_str "scene" mode)
                  (form_float_value DEFAULT_THRESHOLD threshold)) as (H1 & _ & H3).
    cbn zeta in H1, H3. by apply H3, H1.
  - intros Hmode filename payload Hfile Hthr. rewrite (Hup _ _ Hfile Hthr).
    by destruct Hmode as [-> | ->].
Qed.

Lemma zip_path_outside d : strip_prefix (d +:+ "/") (d +:+ ".zip") = None.
Proof. by rewrite strip_prefix_app_app. Qed.

Lemma zip_path_neq_dir d : d +:+ ".zip" ≠ d.
Proof.
  intros H. apply (f_equal String.length) in H.
  rewrite string_app_length in H. cbn in H. lia.
Qed.

(** What [download_zip] does for an existing job. *)
Lemma download_zip_existing w job_id :
  let job_dir := os_path_join OUTPUT_ROOT job_id in
  let zip_path := job_dir +:+ ".zip" in
  let archive := make_zipfile (dir_contents (fs w) job_dir) in
  isdir (fs w) job_dir = true →
  download_zip make_zipfile w job_id =
    match fs w !! zip_path with
    | Some Dir => (Escaped IsADirectoryError, w)
    | _ => (Returned (FileResponse zip_path (job_id +:+ ".zip")
                        "application/zip" (Some archive)),
            mkWorld (<[zip_path := File archive]> (fs w)) (uuid_draws w))
    end.
Proof.
  intros job_dir zip_path archive Hd.
  unfold download_zip. fold job_dir. rewrite Hd. cbn [negb].
  unfold make_zip, make_archive. fold zip_path. fold archive.
  destruct (fs w !! zip_path) as [[|c]|]; [done|..];
    unfold file_content; by rewrite lookup_insert_eq.
Qed.

(** Storing the archive changes neither the job directory nor the next
    archive. *)
Lemma download_zip_again w job_id :
  let job_dir := os_path_join OUTPUT_ROOT job_id in
  let zip_path := job_dir +:+ ".zip" in
  let archive := make_zipfile (dir_contents (fs w) job_dir) in
  let w1 := mkWorld (<[zip_path := File archive]> (fs w)) (uuid_draws w) in
  isdir (fs w) job_dir = true →
  download_zip make_zipfile w1 job_id =
    (Returned (FileResponse zip_path (job_id +:+ ".zip") "application/zip" (Some archive)),
     w1).
Proof.
  intros job_dir zip_path archive w1 Hd.
  rewrite download_zip_existing; fold job_dir; fold zip_path; cbn.
  - rewrite lookup_insert_eq.
    rewrite dir_contents_insert_outside by apply zip_path_outside.
    by rewrite insert_insert_eq.
  - unfold isdir. rewrite lookup_insert_ne by apply zip_path_neq_dir. exact Hd.
Qed.

(** C8. For an existing job, two downloads in a row answer the same and
    the second leaves the filesystem as the first left it; the archive is
    the ZIP of what the job directory holds at the time of the request, it
    is offered as [{job_id}.zip], and it is stored next to the job
    directory, not inside it. *)
Theorem download_zip_idempotent w job_id :
  let job_dir := os_path_join OUTPUT_ROOT job_id in
  let zip_path := job_dir +:+ ".zip" in
  let archive := make_zipfile (dir_contents (fs w) job_dir) in
  let first := download_zip make_zipfile w job_id in
  let second := download_zip make_zipfile (snd first) job_id in
  isdir (fs w) job_dir = true →
  (fst second = fst first ∧ snd second = snd first)
  ∧ (fs w !! zip_path ≠ Some Dir →
       fst first = Returned (FileResponse zip_path (job_id +:+ ".zip")
                               "application/zip" (Some archive))
       ∧ fs (snd first) = <[zip_path := File archive]> (fs w)
       ∧ dir_contents (fs (snd first)) job_dir = dir_contents (fs w) job_dir)
  ∧ (∀ rel, zip_path ≠ job_dir +:+ "/" +:+ rel)
  ∧ (startswith job_id "/" = false → zip_path = "output/" +:+ job_id +:+ ".zip").
Proof.
  intros job_dir zip_path archive first second Hd.
  assert (∀ rel, zip_path ≠ job_dir +:+ "/" +:+ rel) as Hout.
  { intros rel Heq. pose proof (zip_path_outside job_dir) as Hz.
    fold zip_path in Hz. rewrite Heq in Hz.
    by rewrite <- string_app_assoc, strip_prefix_app in Hz. }
  assert (startswith job_id "/" = false → zip_path = "output/" +:+ job_id +:+ ".zip")
    as Hadj.
  { intros Hrel. subst zip_path job_dir. unfold os_path_join. rewrite Hrel. cbn.
    by rewrite !string_app_assoc. }
  pose proof (download_zip_existing w job_id Hd) as Hfirst.
  pose proof (download_zip_again w job_id Hd) as Hagain.
  cbn zeta in Hfirst, Hagain. fold job_dir zip_path archive in Hfirst, Hagain.
  fold first in Hfirst.
  destruct (fs w !! zip_path) as [[|c]|] eqn:Hz.
  { (* a directory is in the way: both requests fail alike *)
    assert (second = first) as -> by (subst second; by rewrite Hfirst).
    split_and!; [done|done| |done|done]. by intros []. }
  all: assert (second = first) as ->
    by (subst second; rewrite Hfirst; cbn [snd]; by rewrite Hagain).
  all: split_and!; [done|done| |done|done].
  all: intros _; rewrite Hfirst; cbn; split_and!; [done|done|].
  all: apply dir_contents_insert_outside, zip_path_outside.
Qed.

(** C9. [ffmpeg_extract] hands the tool exactly
    [ffmpeg -i <source> -vf <expression> -vsync vfr -qscale:v 2
    <dest>/frame-%06d.jpg] (the filter, sync and quality options), where
    the expression selects the frames whose scene score exceeds the
    threshold in [scene] mode and samples at a fixed rate in [all] mode. *)
Theorem ffmpeg_extract_command fs0 src_path dest_dir mode threshold :
  let expression :=
    if String.eqb mode "all" then "fps=30"
    else "select='gt(scene," +:+ float_repr threshold +:+ ")',showinfo" in
  let cmd :=
    [ "ffmpeg"; "-i"; src_path; "-vf"; expression; "-vsync"; "vfr";
      "-qscale:v"; "2"; os_path_join dest_dir "frame-%06d.jpg" ] in
  ffmpeg_cmd float_repr src_path dest_dir mode threshold = cmd
  ∧ match makedirs fs0 dest_dir with
    | inl e =>
        ffmpeg_extract ffmpeg float_repr fs0 src_path dest_dir mode threshold = (inl e, fs0)
    | inr fs1 =>
        let run := ffmpeg cmd fs1 in
        ffmpeg_extract ffmpeg float_repr fs0 src_path dest_dir mode threshold
        = (if (returncode run =? 0)%Z then inr ()
           else inl (CalledProcessError (returncode run) (stderr run)),
           store_frames fs1 dest_dir 1 (frames run))
    end
  ∧ (mode = "scene" →
       expression = "select='gt(scene," +:+ float_repr threshold +:+ ")',showinfo")
  ∧ (mode = "all" → expression = "fps=30")
  ∧ (dest_dir ≠ "" → endswith dest_dir "/" = false →
       os_path_join dest_dir "frame-%06d.jpg" = dest_dir +:+ "/frame-%06d.jpg").
Proof.
  intros expression cmd. split_and!.
  - done.
  - unfold ffmpeg_extract. destruct (makedirs fs0 dest_dir) as [e|fs1]; [done|].
    unfold subprocess_run.
    change (ffmpeg_cmd float_repr src_path dest_dir mode threshold) with cmd.
    by destruct (returncode (ffmpeg cmd fs1) =? 0)%Z.
  - by intros ->.
  - by intros ->.
  - intros Hne Hsl. unfold os_path_join. cbn [startswith strip_prefix].
    rewrite Hsl. by destruct (String.eqb_spec dest_dir "").
Qed.

End BackendFacts.

(** ** Concrete runs *)

(** C3 (counterexample). The tool emits one frame and fails: the upload
    answers 500, and the listing then presents the job directory, with its
    single frame, as an existing job. *)
Lemma failed_extraction_is_listed :
  let up := upload_video sample_uuid failing_tool sample_repr empty_world
              "clip.mp4" [Byte.x00] "scene" sample_threshold in
  fst up = HTTPException 500 "ffmpeg failed: Conversion failed!"
  ∧ isdir (fs (snd up)) sample_job_dir = true
  ∧ fst (list_images (snd up) sample_job 1 50)
    = Returned (mkListing
                  [ "/output/0123456789abcdef0123456789abcdef/frame-000001.jpg" ]
                  1 1 1 50).
Proof. vm_compute. by split_and!. Qed.


(** The identities [.] and [..] are not plain names: joined to the output
    root they resolve to the output root and to the working directory,
    which are directories, while no node is keyed by the path as
    written. *)
Example dot_job_dirs_resolve_to_directories :
  let fs0 := fs empty_world in
  plain_name "." = false ∧ plain_name ".." = false
  ∧ walk fs0 (os_path_join OUTPUT_ROOT ".") = inr [OUTPUT_ROOT]
  ∧ node_at fs0 false [OUTPUT_ROOT] = Some Dir
  ∧ walk fs0 (os_path_join OUTPUT_ROOT "..") = inr []
  ∧ node_at fs0 false [] = Some Dir
  ∧ fs0 !! os_path_join OUTPUT_ROOT "." = None
  ∧ fs0 !! os_path_join OUTPUT_ROOT ".." = None.
Proof. vm_compute. by split_and!. Qed.

(** C6 (counterexample). A request whose mode field is sent empty: the
    mode supplied is neither [scene] nor [all], yet the upload is accepted
    (the default [scene] stands in), a job identity is drawn and its
    directory created. *)
Lemma empty_mode_is_accepted :
  let up := post_upload sample_uuid one_frame_tool sample_repr empty_world
              (Some ("clip.mp4", [Byte.x00])) (Some "") (FloatSent sample_threshold) in
  "" ≠ "scene" ∧ "" ≠ "all"
  ∧ fst up = Returned sample_job
  ∧ status_of (fst up) = 200%Z
  ∧ uuid_draws (snd up) = 1
  ∧ isdir (fs (snd up)) sample_job_dir = true.
Proof. vm_compute. by split_and!. Qed.

Lemma download_zip_idempotent_witness :
  let job_dir := os_path_join OUTPUT_ROOT "mixed" in
  let zip_path := job_dir +:+ ".zip" in
  let archive := sample_zip (dir_contents (fs mixed_world) job_dir) in
  let first := download_zip sample_zip mixed_world "mixed" in
  let second := download_zip sample_zip (snd first) "mixed" in
  (fst second = fst first ∧ snd second = snd first)
  ∧ (fs mixed_world !! zip_path ≠ Some Dir →
       fst first = Returned (FileResponse zip_path ("mixed" +:+ ".zip")
                               "application/zip" (Some archive))
       ∧ fs (snd first) = <[zip_path := File archive]> (fs mixed_world)
       ∧ dir_contents (fs (snd first)) job_dir = dir_contents (fs mixed_world) job_dir)
  ∧ (∀ rel, zip_path ≠ job_dir +:+ "/" +:+ rel)
  ∧ (startswith "mixed" "/" = false → zip_path = "output/" +:+ "mixed" +:+ ".zip").
Proof.
  apply (download_zip_idempotent sample_zip mixed_world "mixed").
  vm_compute; reflexivity.
Defined.

(** The archive of the mixed job holds the whole tree, is offered as
    [mixed.zip] and is stored at [output/mixed.zip]. *)
Example download_zip_mixed :
  fst (download_zip sample_zip mixed_world "mixed")
  = Returned (FileResponse "output/mixed.zip" "mixed.zip" "application/zip"
                (Some (sample_zip (dir_contents (fs mixed_world) "output/mixed"))))
  ∧ length (map_to_list (dir_contents (fs mixed_world) "output/mixed")) = 5.
Proof. vm_compute. done. Qed.

(** C7 (failing input). An upload whose file name is that of the first
    frame: the tool stores its frame at the path of the source file, and
    the cleanup then removes that frame.  The upload answers with the job
    identity, and the job lists no image. *)
Theorem upload_named_like_first_frame_loses_it :
  let job_dir := sample_job_dir in
  let up := upload_video sample_uuid one_frame_tool sample_repr empty_world
              "frame-000001.jpg" [Byte.x00] "all" sample_threshold in
  os_path_join job_dir "frame-000001.jpg" = frame_path job_dir 1
  ∧ frames (one_frame_tool [] ∅) = [[Byte.xff; Byte.xd8]]
  ∧ fst up = Returned sample_job
  ∧ fs (snd up) !! frame_path job_dir 1 = None
  ∧ fst (list_images (snd up) sample_job 1 50) = Returned (mkListing [] 1 1 0 50).
Proof. vm_compute. by split_and!. Qed.

(** The same upload under another file name keeps the frame. *)
Example upload_keeps_frames :
  let job_dir := sample_job_dir in
  let up := upload_video sample_uuid one_frame_tool sample_repr empty_world
              "clip.mp4" [Byte.x00] "all" sample_threshold in
  fst up = Returned sample_job
  ∧ fs (snd up) !! frame_path job_dir 1 = Some (File [Byte.xff; Byte.xd8])
  ∧ fs (snd up) !! os_path_join job_dir "clip.mp4" = None
  ∧ fst (list_images (snd up) sample_job 1 50)
    = Returned (mkListing
                  [ "/output/0123456789abcdef0123456789abcdef/frame-000001.jpg" ]
                  1 1 1 50).
Proof. vm_compute. by split_and!. Qed.

(** * Further properties of the endpoints *)

(** ** Listing: validation, and how the pages fit together *)


(** The answer of the listing depends on the filesystem only through the
    existence of the job directory and of its [.jpg] entries. *)
Lemma list_images_ext w1 w2 job_id pg limit :
  let job_dir := os_path_join OUTPUT_ROOT job_id in
  isdir (fs w1) job_dir = isdir (fs w2) job_dir →
  (∀ n, endswith n ".jpg" = true →
        is_Some (fs w1 !! (job_dir +:+ "/" +:+ n)) ↔ is_Some (fs w2 !! (job_dir +:+ "/" +:+ n))) →
  fst (list_images w1 job_id pg limit) = fst (list_images w2 job_id pg limit).
Proof.
  intros job_dir Hd Hn. unfold list_images. fold job_dir.
  rewrite Hd, (all_images_of_ext (fs w1) (fs w2) job_dir Hn).
  by repeat case_match.
Qed.


Lemma concat_chunks {A} (l : list A) (size n : nat) :
  concat ((λ i, take size (drop (i * size) l)) <$> seq 0 n) = take (n * size) l.
Proof.
  induction n as [|n IH]; [by rewrite take_0|].
  rewrite seq_S, fmap_app, concat_app, IH. cbn.
  rewrite app_nil_r, take_take_drop. f_equal. lia.
Qed.

Lemma concat_fmap_each {A B C} (f : B → C) (g : A → list B) (l : list A) :
  concat ((λ i, f <$> g i) <$> l) = f <$> concat (g <$> l).
Proof.
  induction l as [|a l IH]; [done|]. cbn. by rewrite IH, fmap_app.
Qed.

Lemma NoDup_all_images_of fs0 d : NoDup (all_images_of fs0 d).
Proof. rewrite all_images_of_perm. apply NoDup_jpg_names. Qed.

(** X2. For an existing job the pages [1 .. total_pages], one after the
    other, are the sorted image list exactly: every image is on one page,
    none is skipped or repeated.  (Image count below [2^52].) *)
Theorem list_images_pages_partition w job_id limit :
  let job_dir := os_path_join OUTPUT_ROOT job_id in
  let count := Z.of_nat (length (jpg_names (fs w) job_dir)) in
  let pages := Z.to_nat (Z.max 1 (PyNum.ceil_div count limit)) in
  isdir (fs w) job_dir = true →
  (1 ≤ limit ≤ 500)%Z → (count < 2 ^ 52)%Z →
  concat ((λ i, page_images (fst (list_images w job_id (Z.of_nat (S i)) limit)))
            <$> seq 0 pages)
  = image_url job_id <$> all_images_of (fs w) job_dir
  ∧ NoDup (image_url job_id <$> all_images_of (fs w) job_dir).
Proof.
  intros job_dir count pages Hd Hl Hn.
  pose proof (all_images_of_length (fs w) job_dir) as Hlen.
  pose proof (ceil_div_spec count limit ltac:(lia)) as Hc.
  split.
  - transitivity (concat ((λ i, image_url job_id <$>
                     take (Z.to_nat limit)
                       (drop (i * Z.to_nat limit) (all_images_of (fs w) job_dir)))
                   <$> seq 0 pages)).
    { f_equal. apply list_fmap_ext. intros _ i _.
      rewrite list_images_returns; [|lia|done|done|fold job_dir; by rewrite Hlen].
      cbn. fold job_dir. do 3 f_equal. lia. }
    rewrite concat_fmap_each, concat_chunks. f_equal.
    apply take_ge. rewrite Hlen. subst pages. nia.
  - apply NoDup_fmap_2; [|apply NoDup_all_images_of].
    intros a b. apply image_url_inj.
Qed.

(** X3. For an existing job, page [p] holds
    [min(limit, total - (p - 1) * limit)] images (none when that is not
    positive): every page before the last is full, and a page is non-empty
    exactly when it starts before the end of the list.  (Image count below
    [2^52].) *)
Theorem list_images_page_size w job_id pg limit :
  let job_dir := os_path_join OUTPUT_ROOT job_id in
  let count := Z.of_nat (length (jpg_names (fs w) job_dir)) in
  let pages := Z.max 1 (PyNum.ceil_div count limit) in
  let size := Z.of_nat (length (page_images (fst (list_images w job_id pg limit)))) in
  isdir (fs w) job_dir = true →
  (1 ≤ pg)%Z → (1 ≤ limit ≤ 500)%Z → (count < 2 ^ 52)%Z →
  (size = Z.max 0 (Z.min limit (count - (pg - 1) * limit))
   ∧ (pg < pages → size = limit)
   ∧ (0 < size ↔ pg ≤ pages ∧ 0 < count))%Z.
Proof.
  intros job_dir count pages size Hd Hp Hl Hn.
  pose proof (all_images_of_length (fs w) job_dir) as Hlen.
  pose proof (ceil_div_spec count limit ltac:(lia)) as Hc.
  assert (size = Z.max 0 (Z.min limit (count - (pg - 1) * limit)))%Z as Hsize.
  { subst size.
    rewrite list_images_returns; [|lia|done|done|fold job_dir; by rewrite Hlen].
    cbn. fold job_dir. rewrite length_fmap, length_take, length_drop, Hlen.
    assert (0 ≤ (pg - 1) * limit)%Z by nia. subst count. lia. }
  split; [done|]. rewrite Hsize. subst pages. split; [nia|].
  assert (0 ≤ (pg - 1) * limit)%Z by nia.
  destruct (decide (count = 0%Z)) as [Hz|]; [rewrite Hz in *; lia|].
  assert (0 < count)%Z by lia. nia.
Qed.

(** ** Upload: what it can touch *)

Lemma str_take_length n s : String.length (str_take n s) ≤ n.
Proof.
  revert s. induction n as [|n IH]; intros [|c s]; cbn; try lia.
  specialize (IH s). lia.
Qed.

Lemma str_take_prefix n s : ∃ rest, s = str_take n s +:+ rest.
Proof.
  revert s. induction n as [|n IH]; intros s.
  - exists s. by destruct s.
  - destruct s as [|c s]; [by exists ""|].
    destruct (IH s) as [rest Hr]. exists rest. cbn.
    rewrite string_app_cons. by rewrite <- Hr.
Qed.

Lemma makedirs_footprint fs0 p fs' :
  makedirs fs0 p = inr fs' →
  ∀ k, fs' !! k = fs0 !! k ∨ k = p ∨ k ∈ ancestors p.
Proof.
  unfold makedirs. destruct (ensure_dirs fs0 (ancestors p)) as [|fs1] eqn:H1; [done|].
  destruct (ensure_dirs_ok _ _ _ H1) as [_ Hkeep].
  unfold ensure_dir. destruct (fs1 !! p) as [[|c]|] eqn:Hp; intros ? k; simplify_eq.
  - destruct (Hkeep k) as [?|(? & _)]; auto.
  - destruct (decide (k = p)) as [->|Hne]; [auto|].
    rewrite lookup_insert_ne by done.
    destruct (Hkeep k) as [?|(? & _)]; auto.
Qed.

Lemma makedirs_error fs0 p e :
  makedirs fs0 p = inl e → e = FileExistsError ∨ e = NotADirectoryError.
Proof.
  unfold makedirs.
  assert (∀ ps fs1, ensure_dirs fs1 ps = inl e → e = NotADirectoryError) as Hanc.
  { induction ps as [|q ps IH]; intros fs1; [done|]. cbn. unfold ensure_dir.
    destruct (fs1 !! q) as [[|c]|]; [by apply IH|by intros [= <-]|by apply IH]. }
  destruct (ensure_dirs fs0 (ancestors p)) as [e'|fs1] eqn:H1.
  - intros [= ->]. right. by eapply Hanc.
  - unfold ensure_dir. destruct (fs1 !! p) as [[|c]|]; [done| |done].
    intros [= <-]. by left.
Qed.

Lemma store_frames_footprint fs0 d n fr k :
  store_frames fs0 d n fr !! k = fs0 !! k ∨ ∃ i, k = frame_path d i.
Proof.
  revert fs0 n. induction fr as [|f fr IH]; intros fs0 n; [by left|].
  cbn. destruct (IH (<[frame_path d n := File f]> fs0) (S n)) as [->|?]; [|by right].
  destruct (decide (k = frame_path d n)) as [->|Hne]; [right; by eexists|].
  left. by apply lookup_insert_ne.
Qed.

Section UploadFacts.

Variable uuid4_hex : nat → string.
Variable ffmpeg : list string → gmap string node → tool_run.
Variable float_repr : PyNum.pyfloat → string.

(** X5. Every [HTTPException] the upload raises is either the 400 for an
    invalid mode or a 500 whose detail is ["ffmpeg failed: "] followed by
    at most the first 200 characters of the tool's standard error, hence
    at most 215 characters long. *)
Theorem upload_video_error_detail w filename payload mode threshold code detail :
  fst (upload_video uuid4_hex ffmpeg float_repr w filename payload mode threshold)
    = HTTPException code detail →
  (code = 400%Z ∧ detail = "mode must be 'scene' or 'all'")
  ∨ (code = 500%Z
     ∧ String.length detail ≤ 215
     ∧ ∃ cmd fs0 rest,
         detail = "ffmpeg failed: " +:+ str_take 200 (stderr (ffmpeg cmd fs0))
         ∧ stderr (ffmpeg cmd fs0) = str_take 200 (stderr (ffmpeg cmd fs0)) +:+ rest
         ∧ returncode (ffmpeg cmd fs0) ≠ 0%Z).
Proof.
  intros Hup.
  set (job_dir := os_path_join OUTPUT_ROOT (uuid4_hex (uuid_draws w))).
  destruct (String.eqb mode "scene" || String.eqb mode "all") eqn:Hmode; cycle 1.
  { unfold upload_video in Hup. rewrite Hmode in Hup. cbn [negb fst] in Hup.
    injection Hup as <- <-. by left. }
  unfold upload_video in Hup. rewrite Hmode in Hup. cbn [negb] in Hup.
  fold job_dir in Hup.
  destruct (makedirs (fs w) job_dir) as [e|fs1] eqn:Hmk; [done|].
  set (temp_path := os_path_join job_dir filename) in Hup.
  destruct (write_file fs1 temp_path payload) as [e|fs2] eqn:Hwr; [done|].
  unfold ffmpeg_extract in Hup.
  destruct (makedirs fs2 job_dir) as [e|fs2'] eqn:Hmk2.
  { destruct (os_remove fs2 temp_path); [done|].
    by destruct (makedirs_error _ _ _ Hmk2) as [-> | ->]. }
  unfold subprocess_run in Hup.
  set (run := ffmpeg _ fs2') in Hup.
  destruct (Z.eqb_spec (returncode run) 0) as [|Hrc].
  { by destruct (os_remove _ temp_path). }
  destruct (os_remove _ temp_path); [done|].
  cbn [fst] in Hup.
  set (shown := str_take 200 (stderr run)) in Hup.
  injection Hup as <- <-. right. split; [done|]. split.
  - rewrite string_app_length.
    change (String.length "ffmpeg failed: ") with 15.
    pose proof (str_take_length 200 (stderr run)). fold shown in H. lia.
  - destruct (str_take_prefix 200 (stderr run)) as [rest Hrest].
    by eexists _, fs2', rest.
Qed.

End UploadFacts.

(** ** Paths of jobs with plain identities *)

Lemma endswith_sep_app a b :
  b ≠ "" → endswith (a +:+ b) "/" = true → endswith b "/" = true.
Proof.
  intros Hb. induction a as [|c a IH]; [done|].
  rewrite string_app_cons, endswith_unfold.
  destruct (String.eqb_spec (String c (a +:+ b)) "/") as [Heq|_]; [|done].
  injection Heq as _ Heq. destruct a; [by rewrite string_app_nil_l in Heq|done].
Qed.

Lemma endswith_sep_has_sep s : endswith s "/" = true → has_sep s = true.
Proof.
  intros [p ->]%endswith_spec. rewrite has_sep_app. cbn. by rewrite orb_true_r.
Qed.

(** The directory of a job with a plain identity. *)
Lemma job_dir_plain job_id :
  entry_name job_id = true →
  os_path_join OUTPUT_ROOT job_id = "output/" +:+ job_id
  ∧ ("output/" +:+ job_id) ≠ ""
  ∧ endswith ("output/" +:+ job_id) "/" = false.
Proof.
  intros [Hne Hsep]%entry_name_inv. split_and!.
  - unfold os_path_join. by rewrite (has_sep_startswith _ Hsep).
  - done.
  - destruct (endswith ("output/" +:+ job_id) "/") eqn:He; [|done].
    apply endswith_sep_app, endswith_sep_has_sep in He; [congruence|done].
Qed.

Lemma os_path_join_plain d n :
  d ≠ "" → endswith d "/" = false → startswith n "/" = false →
  os_path_join d n = d +:+ "/" +:+ n.
Proof.
  intros Hd He Hn. unfold os_path_join. rewrite Hn, He.
  by destruct (String.eqb_spec d "").
Qed.

(** Where the source of an upload goes when its file name has no
    separator: directly into the job directory, whose directories exist
    once [makedirs] has run. *)
Lemma temp_path_plain fs0 fs1 job_id n :
  let job_dir := os_path_join OUTPUT_ROOT job_id in
  entry_name job_id = true → has_sep n = false →
  makedirs fs0 job_dir = inr fs1 →
  os_path_join job_dir n = job_dir +:+ "/" +:+ n
  ∧ forallb (isdir fs1) (ancestors (os_path_join job_dir n)) = true.
Proof.
  intros job_dir Hj Hn Hmk.
  destruct (job_dir_plain job_id Hj) as (Hjd & Hnz & Hsl).
  pose proof (Hjd : job_dir = "output/" +:+ job_id) as Hjd'.
  rewrite <- Hjd' in Hnz, Hsl.
  destruct (makedirs_ok _ _ _ Hmk) as (Hdir & Hanc & _).
  assert (os_path_join job_dir n = job_dir +:+ "/" +:+ n) as Htemp.
  { apply os_path_join_plain; [done|done|by apply has_sep_startswith]. }
  split; [done|]. rewrite Htemp. by apply child_ancestors_present.
Qed.

Lemma frame_path_plain d i :
  d ≠ "" → endswith d "/" = false → frame_path d i = d +:+ "/" +:+ frame_name i.
Proof. intros. by apply os_path_join_plain. Qed.

(** Splitting at the first separator is unambiguous. *)
Lemma sep_split_inj a b a' b' :
  has_sep a = false → has_sep a' = false →
  a +:+ "/" +:+ b = a' +:+ "/" +:+ b' → a = a' ∧ b = b'.
Proof.
  revert a'. induction a as [|c a IH]; intros [|c' a'] Ha Ha' Heq.
  - rewrite !string_app_nil_l in Heq. by apply (inj (String.app _)) in Heq as ->.
  - rewrite string_app_nil_l, !string_app_cons in Heq. injection Heq as <- _.
    cbn in Ha'. done.
  - rewrite string_app_nil_l, !string_app_cons in Heq. injection Heq as -> _.
    cbn in Ha. done.
  - rewrite !string_app_cons in Heq. injection Heq as -> Heq.
    cbn in Ha, Ha'. apply orb_false_iff in Ha as [_ Ha], Ha' as [_ Ha'].
    destruct (IH a' Ha Ha' Heq) as [-> ->]. done.
Qed.

Lemma ancestors_from_prefix seen rest a :
  a ∈ ancestors_from seen rest → ∃ r, seen +:+ rest = a +:+ "/" +:+ r.
Proof.
  revert seen. induction rest as [|c rest IH]; intros seen; cbn.
  - by intros ?%elem_of_nil.
  - rewrite elem_of_app. intros [H|H].
    + destruct (Ascii.eqb_spec c "/") as [->|]; [|by apply elem_of_nil in H].
      destruct (negb _); [|by apply elem_of_nil in H].
      apply list_elem_of_singleton in H as ->. by exists rest.
    + apply IH in H as [r Hr]. exists r. rewrite <- Hr.
      by rewrite string_app_assoc.
Qed.

Lemma ancestors_prefix p a : a ∈ ancestors p → ∃ r, p = a +:+ "/" +:+ r.
Proof. intros H%ancestors_from_prefix. by rewrite string_app_nil_l in H. Qed.

(** No path of another plain job is the directory of job [j], above it, or
    directly inside it. *)
Lemma other_job_paths_apart j j' k :
  entry_name j = true → has_sep j' = false → j' ≠ j →
  (k = "output/" +:+ j' ∨ ∃ n, k = "output/" +:+ j' +:+ "/" +:+ n) →
  k ≠ "output/" +:+ j
  ∧ (k ∉ ancestors ("output/" +:+ j))
  ∧ ∀ x, k ≠ "output/" +:+ j +:+ "/" +:+ x.
Proof.
  intros [_ Hj]%entry_name_inv Hj' Hne Hk.
  assert (∀ r, has_sep (j +:+ "/" +:+ r) = true) as Hsep1.
  { intros r. rewrite !has_sep_app. cbn. by rewrite orb_true_r. }
  assert (∀ r, has_sep (j' +:+ "/" +:+ r) = true) as Hsep2.
  { intros r. rewrite !has_sep_app. cbn. by rewrite orb_true_r. }
  destruct Hk as [->|[n ->]]; split_and!.
  - intros Heq. apply (inj (String.app _)) in Heq. done.
  - intros [r Hr]%ancestors_prefix. rewrite string_app_assoc in Hr.
    apply (inj (String.app _)) in Hr. specialize (Hsep2 r). congruence.
  - intros x Heq.
    apply (inj (String.app _)) in Heq. specialize (Hsep1 x). congruence.
  - intros Heq.
    apply (inj (String.app _)) in Heq. specialize (Hsep2 n). congruence.
  - intros [r Hr]%ancestors_prefix. rewrite !string_app_assoc in Hr.
    apply (inj (String.app _)) in Hr.
    assert (has_sep j = true); [|congruence].
    rewrite Hr, !has_sep_app. cbn. by rewrite !orb_true_r.
  - intros x Heq.
    apply (inj (String.app _)) in Heq.
    by destruct (sep_split_inj _ _ _ _ Hj' Hj Heq).
Qed.

Lemma dir_contents_insert_inside (fs0 : gmap string node) d rel nd :
  dir_contents (<[d +:+ "/" +:+ rel := nd]> fs0) d = <[rel := nd]> (dir_contents fs0 d).
Proof.
  apply map_eq. intros r. rewrite dir_contents_lookup.
  destruct (decide (rel = r)) as [->|Hne].
  - by rewrite !lookup_insert_eq.
  - rewrite !lookup_insert_ne, ?dir_contents_lookup; [done|done|].
    intros Heq. by do 2 apply (inj (String.app _)) in Heq.
Qed.

Lemma os_path_join_output_nonempty j : os_path_join OUTPUT_ROOT j ≠ "".
Proof.
  unfold os_path_join. destruct (startswith j "/") eqn:H; [by intros ->|done].
Qed.

(** ** Isolation between jobs, and what the cleanup can destroy *)

Section IsolationFacts.

Variable uuid4_hex : nat → string.
Variable ffmpeg : list string → gmap string node → tool_run.
Variable float_repr : PyNum.pyfloat → string.
Variable make_zipfile : gmap string node → list Byte.byte.

(** The paths an upload can change, when its file name has no separator. *)
Lemma upload_video_footprint_paths w filename payload mode threshold k :
  let job_id := uuid4_hex (uuid_draws w) in
  let job_dir := os_path_join OUTPUT_ROOT job_id in
  let up := upload_video uuid4_hex ffmpeg float_repr w filename payload mode threshold in
  entry_name job_id = true → has_sep filename = false →
  fs (snd up) !! k = fs w !! k
  ∨ k = job_dir ∨ k ∈ ancestors job_dir
  ∨ k = os_path_join job_dir filename
  ∨ ∃ n, k = frame_path job_dir n.
Proof.
  intros job_id job_dir up Hj Hf.
  destruct (String.eqb mode "scene" || String.eqb mode "all") eqn:Hmode; cycle 1.
  { left. subst up. unfold upload_video. by rewrite Hmode. }
  destruct (makedirs (fs w) job_dir) as [e|fs1] eqn:Hmk.
  { left. subst up. unfold upload_video. rewrite Hmode. cbn [negb].
    fold job_id. fold job_dir. by rewrite Hmk. }
  pose proof (makedirs_footprint _ _ _ Hmk k) as Hfp.
  destruct (temp_path_plain _ _ job_id filename Hj Hf Hmk) as [_ Hlit].
  fold job_dir in Hlit.
  destruct (write_file fs1 (os_path_join job_dir filename) payload) as [e|fs2] eqn:Hwr.
  { subst up. unfold upload_video. rewrite Hmode. cbn [negb].
    fold job_id. fold job_dir. rewrite Hmk, Hwr. cbn. destruct Hfp as [?|[?|?]]; auto. }
  destruct (upload_video_after_store uuid4_hex ffmpeg float_repr
              w filename payload mode threshold fs1 fs2 Hmode Hmk Hlit Hwr)
    as (Hup & _ & _ & ->).
  fold job_id in Hup. fold job_dir in Hup. fold up in Hup. rewrite Hup. cbn [snd fs].
  destruct (decide (k = os_path_join job_dir filename)) as [->|Hne]; [auto|].
  rewrite lookup_delete_ne by done.
  match goal with |- store_frames ?a ?b ?c ?d !! _ = _ ∨ _ =>
    destruct (store_frames_footprint a b c d k) as [->|?] end; [|auto 6].
  rewrite lookup_insert_ne by done. destruct Hfp as [?|[?|?]]; auto.
Qed.

(** X4. An upload request whose file name has no separator, whatever its
    outcome, leaves every path as it was except the job directory of the
    identity it draws, the directories leading to it, the path of the
    source in that directory, and the frame paths of that directory.  It
    draws exactly one UUID when the form is accepted and the mode in effect
    (the default for an absent or empty mode) is [scene] or [all], and none
    otherwise; a request without the file part changes nothing. *)
Theorem post_upload_footprint w filename payload mode threshold :
  let job_id := uuid4_hex (uuid_draws w) in
  let job_dir := os_path_join OUTPUT_ROOT job_id in
  let up := post_upload uuid4_hex ffmpeg float_repr w (Some (filename, payload))
              mode threshold in
  let m := form_str "scene" mode in
  entry_name job_id = true → has_sep filename = false →
  (∀ k, fs (snd up) !! k = fs w !! k
        ∨ k = job_dir ∨ k ∈ ancestors job_dir
        ∨ k = job_dir +:+ "/" +:+ filename
        ∨ ∃ n, k = frame_path job_dir n)
  ∧ uuid_draws (snd up)
    = (if form_float_ok threshold && (String.eqb m "scene" || String.eqb m "all")
       then S (uuid_draws w) else uuid_draws w)
  ∧ post_upload uuid4_hex ffmpeg float_repr w None mode threshold
    = (RequestValidationError, w).
Proof.
  intros job_id job_dir up m Hj Hf.
  destruct (form_float_cases threshold) as [->|Hthr].
  { subst up. cbn. split_and!; [by left|done..]. }
  assert (up = upload_video uuid4_hex ffmpeg float_repr w filename payload m
                 (form_float_value DEFAULT_THRESHOLD threshold)) as ->.
  { subst up. unfold post_upload. by destruct threshold. }
  assert (form_float_ok threshold = true) as -> by by destruct threshold.
  cbn [andb]. split_and!; [|clear; unfold upload_video|done].
  - intros k.
    assert (os_path_join job_dir filename = job_dir +:+ "/" +:+ filename) as <-.
    { destruct (job_dir_plain job_id Hj) as (Hjd & Hnz & Hsl).
      pose proof (Hjd : job_dir = "output/" +:+ job_id) as Hjd'.
      rewrite <- Hjd' in Hnz, Hsl.
      apply os_path_join_plain; [done|done|by apply has_sep_startswith]. }
    by apply upload_video_footprint_paths.
  - destruct (String.eqb m "scene" || String.eqb m "all"); [|done].
    cbn [negb]. by repeat case_match.
Qed.

(** X6. An upload whose file name has no separator changes nothing in what
    the listing answers for any other job: with plain job identities, the
    listing of a job other than the one the upload draws is the same
    before and after, whatever the tool does. *)
Theorem upload_video_keeps_other_listings
    w filename payload mode threshold other pg limit :
  let job_id := uuid4_hex (uuid_draws w) in
  let up := upload_video uuid4_hex ffmpeg float_repr w filename payload mode threshold in
  entry_name job_id = true → has_sep other = false → other ≠ job_id →
  has_sep filename = false →
  fst (list_images (snd up) other pg limit) = fst (list_images w other pg limit).
Proof.
  intros job_id up Hj Ho Hne Hf.
  destruct (job_dir_plain job_id Hj) as (Hjd & Hnz & Hsl).
  pose proof (os_path_join_output other (has_sep_startswith _ Ho)) as Hod.
  assert (∀ k, (k = "output/" +:+ other ∨ ∃ n, k = "output/" +:+ other +:+ "/" +:+ n) →
               fs (snd up) !! k = fs w !! k) as Hsame.
  { intros k Hk.
    destruct (other_job_paths_apart job_id other k Hj Ho Hne Hk) as (H1 & H2 & H3).
    pose proof (upload_video_footprint_paths w filename payload mode threshold k Hj Hf)
      as Hfp.
    fold job_id in Hfp. fold up in Hfp. rewrite Hjd in Hfp.
    destruct Hfp as [?|[?|[?|[Ht|[n Hn]]]]]; [done|done|done|..]; exfalso.
    - rewrite os_path_join_plain, string_app_assoc in Ht;
        [by apply (H3 filename)|done|done|by apply has_sep_startswith].
    - rewrite frame_path_plain, string_app_assoc in Hn by done.
      by apply (H3 (frame_name n)). }
  apply list_images_ext; rewrite Hod.
  - unfold isdir. by rewrite Hsame by auto.
  - intros n _. rewrite string_app_assoc. rewrite Hsame; [done|]. right. by exists n.
Qed.

(** X7. The source is stored under the client's file name as given, so a
    file name that is the absolute path of an existing file makes the
    upload overwrite that file and then remove it, on the success and on
    the failure path alike. *)
Theorem upload_video_absolute_filename_removes
    w filename payload mode threshold old fs1 :
  let job_dir := os_path_join OUTPUT_ROOT (uuid4_hex (uuid_draws w)) in
  let up := upload_video uuid4_hex ffmpeg float_repr w filename payload mode threshold in
  String.eqb mode "scene" || String.eqb mode "all" = true →
  startswith filename "/" = true → endswith filename "/" = false →
  fs w !! filename = Some (File old) →
  forallb (isdir (fs w)) (ancestors filename) = true →
  makedirs (fs w) job_dir = inr fs1 →
  fs (snd up) !! filename = None
  ∧ (status_of (fst up) = 200%Z ∨ status_of (fst up) = 500%Z).
Proof.
  intros job_dir up Hmode Habs Hsl Hold Hanc Hmk.
  destruct (makedirs_ok _ _ _ Hmk) as (_ & _ & Hkeep).
  assert (∀ k nd, fs w !! k = Some nd → fs1 !! k = Some nd) as Hmono.
  { intros k nd Hk. destruct (Hkeep k) as [->|[? _]]; congruence. }
  assert (os_path_join job_dir filename = filename) as Htemp.
  { unfold os_path_join. by rewrite Habs. }
  assert (forallb (isdir fs1) (ancestors (os_path_join job_dir filename)) = true)
    as Hlit.
  { rewrite Htemp. apply forallb_forall. intros a Ha.
    rewrite forallb_forall in Hanc. specialize (Hanc a Ha).
    unfold isdir in *. destruct (fs w !! a) as [[|?]|] eqn:Hfa; try done.
    by rewrite (Hmono _ _ Hfa). }
  assert (write_file fs1 (os_path_join job_dir filename) payload
          = inr (<[filename := File payload]> fs1)) as Hwr.
  { rewrite Htemp in Hlit |- *. unfold write_file.
    destruct (String.eqb_spec filename "") as [->|_]; [done|].
    by rewrite Hsl, (Hmono _ _ Hold), Hlit. }
  destruct (upload_video_after_store uuid4_hex ffmpeg float_repr
              w filename payload mode threshold fs1 _ Hmode Hmk Hlit Hwr)
    as (Hup & _ & _ & _).
  fold job_dir in Hup. fold up in Hup. rewrite Hup.
  set (exit_ok := (returncode _ =? 0)%Z). split.
  - rewrite Htemp. apply lookup_delete_eq.
  - destruct exit_ok; [left|right]; reflexivity.
Qed.

(** X8. An upload with an empty file name cannot store its source: the
    path is the job directory itself.  The request fails with an escaped
    [IsADirectoryError] (status 500) before the tool is run, and the job
    directory made for it, like the UUID drawn, is not given back. *)
Theorem upload_video_empty_filename w payload mode threshold fs1 :
  let job_dir := os_path_join OUTPUT_ROOT (uuid4_hex (uuid_draws w)) in
  String.eqb mode "scene" || String.eqb mode "all" = true →
  makedirs (fs w) job_dir = inr fs1 →
  upload_video uuid4_hex ffmpeg float_repr w "" payload mode threshold
  = (Escaped IsADirectoryError, mkWorld fs1 (S (uuid_draws w)))
  ∧ isdir fs1 job_dir = true.
Proof.
  intros job_dir Hmode Hmk.
  destruct (makedirs_ok _ _ _ Hmk) as (Hdir & _ & _).
  split; [|unfold isdir; by rewrite Hdir].
  unfold upload_video. rewrite Hmode. cbn [negb]. fold job_dir. rewrite Hmk.
  assert (write_file fs1 (os_path_join job_dir "") payload = inl IsADirectoryError)
    as ->; [|done].
  pose proof (os_path_join_output_nonempty (uuid4_hex (uuid_draws w))) as Hnz.
  fold job_dir in Hnz.
  assert (os_path_join job_dir "" ≠ "" ∧ endswith (os_path_join job_dir "") "/" = true)
    as [Hne He].
  { unfold os_path_join. change (startswith "" "/") with false. cbn match.
    destruct (String.eqb_spec job_dir "") as [|_]; [done|]. cbn [orb].
    destruct (endswith job_dir "/") eqn:He.
    - by rewrite string_app_nil_r.
    - split; [by destruct job_dir|]. apply endswith_spec. by exists job_dir. }
  unfold write_file. destruct (String.eqb_spec (os_path_join job_dir "") ""); [done|].
  by rewrite He.
Qed.

(** X9. A download changes nothing in what the listing answers, for the
    job downloaded and for every other job (plain job identities): the
    archive is not an entry of any job directory. *)
Theorem download_zip_keeps_listings w job_id other pg limit :
  has_sep job_id = false → has_sep other = false →
  fst (list_images (snd (download_zip make_zipfile w job_id)) other pg limit)
  = fst (list_images w other pg limit).
Proof.
  intros Hj Ho.
  pose proof (os_path_join_output _ (has_sep_startswith _ Hj)) as Hjd.
  pose proof (os_path_join_output _ (has_sep_startswith _ Ho)) as Hod.
  destruct (isdir (fs w) (os_path_join OUTPUT_ROOT job_id)) eqn:Hd; cycle 1.
  { unfold download_zip. by rewrite Hd. }
  rewrite (download_zip_existing make_zipfile w job_id Hd). rewrite Hjd.
  set (zip_path := "output/" +:+ job_id +:+ ".zip").
  replace (("output/" +:+ job_id) +:+ ".zip") with zip_path
    by (subst zip_path; by rewrite string_app_assoc).
  assert (∀ n, zip_path ≠ "output/" +:+ other +:+ "/" +:+ n) as Hout.
  { intros n Heq. apply (inj (String.app _)) in Heq.
    apply (f_equal has_sep) in Heq. rewrite !has_sep_app, Hj in Heq.
    cbn in Heq. by rewrite orb_true_r in Heq. }
  destruct (fs w !! zip_path) as [[|c]|] eqn:Hz; [done|..].
  all: apply list_images_ext; rewrite Hod; cbn [snd fs].
  all: try (intros n _; rewrite string_app_assoc, lookup_insert_ne; [done|apply Hout]).
  all: unfold isdir; destruct (decide (zip_path = "output/" +:+ other)) as [<-|Hne];
    [by rewrite lookup_insert_eq, Hz | by rewrite lookup_insert_ne].
Qed.

(** X10. The archive is rebuilt on every download, never reused: after a
    first download and a file then written into the job directory, the
    next download serves the ZIP of the directory with that file, and not
    the archive stored before. *)
Theorem download_zip_never_stale w job_id name data :
  let job_dir := os_path_join OUTPUT_ROOT job_id in
  let zip_path := job_dir +:+ ".zip" in
  let w1 := snd (download_zip make_zipfile w job_id) in
  let w2 := mkWorld (<[job_dir +:+ "/" +:+ name := File data]> (fs w1)) (uuid_draws w1) in
  isdir (fs w) job_dir = true →
  fs w !! zip_path ≠ Some Dir →
  fst (download_zip make_zipfile w2 job_id)
  = Returned (FileResponse zip_path (job_id +:+ ".zip") "application/zip"
                (Some (make_zipfile (<[name := File data]> (dir_contents (fs w) job_dir))))).
Proof.
  intros job_dir zip_path w1 w2 Hd Hz.
  pose proof (download_zip_existing make_zipfile w job_id Hd) as Hfirst.
  cbn zeta in Hfirst. fold job_dir zip_path in Hfirst.
  assert (fs w1 = <[zip_path := File (make_zipfile (dir_contents (fs w) job_dir))]> (fs w))
    as Hfs1.
  { subst w1. rewrite Hfirst. by destruct (fs w !! zip_path) as [[|c]|]. }
  assert (zip_path ≠ job_dir +:+ "/" +:+ name) as Hne.
  { intros Heq. pose proof (zip_path_outside job_dir) as Ho.
    fold zip_path in Ho. rewrite Heq in Ho.
    by rewrite <- string_app_assoc, strip_prefix_app in Ho. }
  assert (isdir (fs w2) job_dir = true) as Hd2.
  { subst w2. cbn. rewrite Hfs1. unfold isdir.
    rewrite lookup_insert_ne by apply entry_path_neq_dir.
    rewrite lookup_insert_ne by apply zip_path_neq_dir. exact Hd. }
  rewrite (download_zip_existing make_zipfile w2 job_id Hd2). fold job_dir zip_path.
  subst w2. cbn [fs uuid_draws]. rewrite Hfs1.
  rewrite lookup_insert_ne by (by apply not_eq_sym).
  rewrite lookup_insert_eq. cbn [fst].
  rewrite dir_contents_insert_inside.
  by rewrite dir_contents_insert_outside by apply zip_path_outside.
Qed.

End IsolationFacts.

(** ** Frame names: zero padding and order *)

Lemma digit_no_sep c k : Ascii.is_nat c = Some k → Ascii.eqb c "/" = false.
Proof. destruct (Ascii.eqb_spec c "/") as [->|]; done. Qed.

Lemma all_digits_no_sep s : all_digits s = true → has_sep s = false.
Proof.
  induction s as [|c s IH]; [done|]. cbn.
  destruct (Ascii.is_nat c) as [k|] eqn:Hc; [|done].
  intros H. by rewrite (digit_no_sep c k Hc), IH.
Qed.

Lemma all_digits_app a b :
  all_digits (a +:+ b) = all_digits a && all_digits b.
Proof.
  induction a as [|c a IH]; [done|]. rewrite string_app_cons. cbn.
  by destruct (Ascii.is_nat c).
Qed.

Lemma dval_acc_app a b acc : dval_acc (a +:+ b) acc = dval_acc b (dval_acc a acc).
Proof.
  revert acc. induction a as [|c a IH]; intros acc; [done|].
  rewrite string_app_cons. cbn [dval_acc]. apply IH.
Qed.

(** The value is linear in what was read before. *)
Lemma dval_acc_linear s acc :
  dval_acc s acc = acc * 10 ^ String.length s + dval_acc s 0.
Proof.
  revert acc. induction s as [|c s IH]; intros acc; [cbn; lia|].
  cbn [dval_acc String.length]. rewrite IH, (IH (10 * 0 + _)).
  rewrite Nat.pow_succ_r'.
  generalize (10 ^ String.length s) (default 0 (Ascii.is_nat c)) (dval_acc s 0).
  intros. lia.
Qed.

Lemma digit_bound c k : Ascii.is_nat c = Some k → k ≤ 9.
Proof.
  destruct c as [[] [] [] [] [] [] [] []]; cbn; intros [= <-] || discriminate; lia.
Qed.

Lemma dval_acc_bound s :
  all_digits s = true → dval_acc s 0 < 10 ^ String.length s.
Proof.
  induction s as [|c s IH]; [cbn; lia|]. cbn [all_digits dval_acc String.length].
  destruct (Ascii.is_nat c) as [k|] eqn:Hc; [|done]. intros Hs.
  rewrite dval_acc_linear, Nat.pow_succ_r'.
  change (default 0 (Some k)) with k.
  pose proof (digit_bound c k Hc). specialize (IH Hs).
  generalize dependent (10 ^ String.length s). intros. nia.
Qed.

Lemma string_of_uint_digits d acc :
  all_digits (NilEmpty.string_of_uint d) = true
  ∧ dval_acc (NilEmpty.string_of_uint d) acc = Nat.of_uint_acc d acc.
Proof.
  revert acc. induction d as [|d IH|d IH|d IH|d IH|d IH|d IH|d IH|d IH|d IH|d IH];
    intros acc; [done|..];
    cbn [NilEmpty.string_of_uint all_digits dval_acc Nat.of_uint_acc];
    (split; [apply (IH 0)|]);
    rewrite (proj2 (IH _)); f_equal; rewrite Nat.tail_mul_spec; cbn; lia.
Qed.

Lemma zeros_S k : zeros (S k) = String "0" (zeros k).
Proof. unfold zeros. destruct k; done. Qed.

Lemma zeros_facts k :
  String.length (zeros k) = k ∧ all_digits (zeros k) = true ∧ dval_acc (zeros k) 0 = 0.
Proof.
  induction k as [|k (IH1 & IH2 & IH3)]; [done|].
  rewrite zeros_S. cbn. by rewrite IH1, IH2, IH3.
Qed.

(** A zero-padded number is a digit string that reads back as the number. *)
Lemma format_06d_value n :
  all_digits (format_06d n) = true ∧ dval_acc (format_06d n) 0 = n.
Proof.
  unfold format_06d. fold (zeros (6 - String.length (NilEmpty.string_of_uint (Nat.to_uint n)))).
  destruct (zeros_facts (6 - String.length (NilEmpty.string_of_uint (Nat.to_uint n))))
    as (_ & Hz1 & Hz2).
  destruct (string_of_uint_digits (Nat.to_uint n) 0) as [Hd1 Hd2].
  rewrite all_digits_app, dval_acc_app, Hz1, Hz2, Hd1, Hd2. split; [done|].
  apply DecimalNat.Unsigned.of_to.
Qed.

(** The decimal numeral of a number has no leading zero. *)
Lemma to_uint_shape n :
  Nat.to_uint n = Decimal.D0 Decimal.Nil
  ∨ (Nat.to_uint n ≠ Decimal.Nil ∧ ∀ d, Nat.to_uint n ≠ Decimal.D0 d).
Proof.
  pose proof (DecimalNat.Unsigned.to_of (Nat.to_uint n)) as H.
  rewrite DecimalNat.Unsigned.of_to in H.
  destruct (Decimal.uint_eq_dec (Decimal.nzhead (Nat.to_uint n)) Decimal.Nil) as [Hz|Hnz].
  - left. apply DecimalFacts.unorm_0 in Hz. by rewrite <- Hz.
  - right. rewrite (DecimalFacts.unorm_nzhead _ Hnz) in H. split.
    + intros Heq. by rewrite Heq in Hnz.
    + intros d Heq. rewrite Heq in H at 1. symmetry in H.
      by apply DecimalFacts.nzhead_nonzero in H.
Qed.

Lemma string_of_uint_lower d :
  d ≠ Decimal.Nil → (∀ d', d ≠ Decimal.D0 d') →
  10 ^ (String.length (NilEmpty.string_of_uint d) - 1) ≤ Nat.of_uint d.
Proof.
  intros Hnil Hz. unfold Nat.of_uint.
  destruct d as [|d|d|d|d|d|d|d|d|d|d]; [done|by destruct (Hz d)|..];
    rewrite <- (proj2 (string_of_uint_digits _ 0));
    cbn [NilEmpty.string_of_uint dval_acc String.length];
    rewrite dval_acc_linear, Nat.sub_succ, Nat.sub_0_r;
    generalize (10 ^ String.length (NilEmpty.string_of_uint d));
    intros; cbn; lia.
Qed.

Lemma format_06d_length n : n < 10 ^ 6 → String.length (format_06d n) = 6.
Proof.
  intros Hn. unfold format_06d.
  fold (zeros (6 - String.length (NilEmpty.string_of_uint (Nat.to_uint n)))).
  rewrite string_app_length, (proj1 (zeros_facts _)).
  enough (String.length (NilEmpty.string_of_uint (Nat.to_uint n)) ≤ 6) by lia.
  destruct (to_uint_shape n) as [->|[Hnil Hz]]; [cbn; lia|].
  pose proof (string_of_uint_lower _ Hnil Hz) as Hlow.
  rewrite DecimalNat.Unsigned.of_to in Hlow.
  destruct (decide (String.length (NilEmpty.string_of_uint (Nat.to_uint n)) ≤ 6));
    [done|exfalso].
  assert (10 ^ 6 ≤ 10 ^ (String.length (NilEmpty.string_of_uint (Nat.to_uint n)) - 1)).
  { apply Nat.pow_le_mono_r; lia. }
  lia.
Qed.

Lemma compare_cons c a d b :
  String.compare (String c a) (String d b)
  = match Ascii.compare c d with
    | Eq => String.compare a b
    | Lt => Lt
    | Gt => Gt
    end.
Proof. done. Qed.

Lemma ascii_compare_refl c : Ascii.compare c c = Eq.
Proof. unfold Ascii.compare. apply N.compare_refl. Qed.

Lemma compare_refl s : String.compare s s = Eq.
Proof.
  induction s as [|c s IH]; [done|]. by rewrite compare_cons, ascii_compare_refl.
Qed.

Lemma compare_app_head p a b :
  String.compare (p +:+ a) (p +:+ b) = String.compare a b.
Proof.
  induction p as [|c p IH]; [done|].
  by rewrite !string_app_cons, compare_cons, ascii_compare_refl.
Qed.

Lemma compare_app_tail a b s :
  String.length a = String.length b →
  String.compare (a +:+ s) (b +:+ s) = String.compare a b.
Proof.
  revert b. induction a as [|c a IH]; intros [|d b] Hlen; try done.
  - rewrite !string_app_nil_l. apply compare_refl.
  - rewrite !string_app_cons, !compare_cons. injection Hlen as Hlen.
    by rewrite IH.
Qed.

Lemma digit_compare c d k l :
  Ascii.is_nat c = Some k → Ascii.is_nat d = Some l →
  Ascii.compare c d = Nat.compare k l.
Proof.
  destruct c as [[] [] [] [] [] [] [] []]; cbn; intros [= <-] || discriminate;
    destruct d as [[] [] [] [] [] [] [] []]; cbn; intros [= <-] || discriminate;
    reflexivity.
Qed.

(** Digit strings of the same length compare as the numbers they stand for. *)
Lemma compare_digits a b :
  all_digits a = true → all_digits b = true →
  String.length a = String.length b →
  String.compare a b = Nat.compare (dval_acc a 0) (dval_acc b 0).
Proof.
  revert b. induction a as [|c a IH]; intros [|d b] Ha Hb Hlen; try done.
  cbn [all_digits] in Ha, Hb.
  destruct (Ascii.is_nat c) as [k|] eqn:Hc; [|done].
  destruct (Ascii.is_nat d) as [l|] eqn:Hd; [|done].
  injection Hlen as Hlen.
  rewrite compare_cons, (digit_compare c d k l Hc Hd).
  cbn [dval_acc]. rewrite Hc, Hd. change (default 0 (Some k)) with k.
  change (default 0 (Some l)) with l.
  rewrite (dval_acc_linear a), (dval_acc_linear b), <- Hlen.
  pose proof (dval_acc_bound a Ha). pose proof (dval_acc_bound b Hb) as Hbb.
  rewrite <- Hlen in Hbb. specialize (IH b Ha Hb Hlen).
  generalize dependent (10 ^ String.length a). intros P HP HPb.
  destruct (Nat.compare_spec k l) as [->|Hlt|Hgt].
  - rewrite IH. destruct (Nat.compare_spec (dval_acc a 0) (dval_acc b 0));
      symmetry; [apply Nat.compare_eq_iff|apply Nat.compare_lt_iff|apply Nat.compare_gt_iff];
      lia.
  - symmetry. apply Nat.compare_lt_iff. nia.
  - symmetry. apply Nat.compare_gt_iff. nia.
Qed.

(** Frame names below one million sort as their numbers. *)
Lemma frame_name_compare i j :
  i < 10 ^ 6 → j < 10 ^ 6 →
  String.compare (frame_name i) (frame_name j) = Nat.compare i j.
Proof.
  intros Hi Hj. unfold frame_name.
  destruct (format_06d_value i) as [Hdi Hvi], (format_06d_value j) as [Hdj Hvj].
  pose proof (format_06d_length i Hi) as Hli.
  pose proof (format_06d_length j Hj) as Hlj.
  rewrite compare_app_head, compare_app_tail by congruence.
  rewrite compare_digits by congruence. by rewrite Hvi, Hvj.
Qed.

Lemma frame_name_le i j :
  i ≤ j → j < 10 ^ 6 → String.le (frame_name i) (frame_name j).
Proof.
  intros Hij Hj. unfold String.le, String.leb.
  rewrite frame_name_compare by lia.
  destruct (Nat.compare_spec i j); [done|done|lia].
Qed.

Lemma frame_name_inj i j :
  i < 10 ^ 6 → j < 10 ^ 6 → frame_name i = frame_name j → i = j.
Proof.
  intros Hi Hj Heq. apply Nat.compare_eq_iff.
  rewrite <- frame_name_compare by done. rewrite Heq. apply compare_refl.
Qed.

Lemma frame_name_entry n :
  entry_name (frame_name n) = true ∧ endswith (frame_name n) ".jpg" = true
  ∧ startswith (frame_name n) "/" = false.
Proof.
  split_and!.
  - unfold entry_name, frame_name. rewrite !has_sep_app.
    rewrite (all_digits_no_sep _ (proj1 (format_06d_value n))). done.
  - unfold frame_name. apply endswith_spec. exists ("frame-" +:+ format_06d n).
    by rewrite string_app_assoc.
  - done.
Qed.

Lemma frame_names_sorted s k :
  s + k ≤ 10 ^ 6 → StronglySorted String.le (frame_name <$> seq s k).
Proof.
  revert s. induction k as [|k IH]; intros s Hk; [constructor|].
  cbn. constructor; [apply IH; lia|].
  apply Forall_fmap, Forall_forall. intros j [? ?]%elem_of_seq.
  apply frame_name_le; lia.
Qed.

Lemma frame_names_NoDup s k :
  s + k ≤ 10 ^ 6 → NoDup (frame_name <$> seq s k).
Proof.
  intros Hk. apply NoDup_fmap_2_strong; [|apply NoDup_seq].
  intros i j [? ?]%elem_of_seq [? ?]%elem_of_seq. apply frame_name_inj; lia.
Qed.

Lemma string_app_inj_r a b c : a +:+ c = b +:+ c → a = b.
Proof.
  revert b. induction a as [|x a IH]; intros [|y b] H.
  - done.
  - apply (f_equal String.length) in H.
    rewrite string_app_nil_l, string_app_cons in H. cbn in H.
    rewrite string_app_length in H. lia.
  - apply (f_equal String.length) in H.
    rewrite string_app_nil_l, string_app_cons in H. cbn in H.
    rewrite string_app_length in H. lia.
  - rewrite !string_app_cons in H. injection H as -> H. f_equal. by apply IH.
Qed.

(** Distinct frame numbers have distinct paths, whatever their size. *)
Lemma frame_path_inj d i j : frame_path d i = frame_path d j → i = j.
Proof.
  unfold frame_path, os_path_join.
  change (startswith ("frame-" +:+ format_06d i +:+ ".jpg") "/") with false.
  change (startswith ("frame-" +:+ format_06d j +:+ ".jpg") "/") with false.
  cbn match. intros H.
  assert (format_06d i +:+ ".jpg" = format_06d j +:+ ".jpg") as Heq.
  { destruct (String.eqb d "" || endswith d "/");
      by repeat apply (inj (String.app _)) in H. }
  apply string_app_inj_r in Heq.
  destruct (format_06d_value i) as [_ <-], (format_06d_value j) as [_ <-].
  by rewrite Heq.
Qed.

Lemma store_frames_lookup_later fs0 d s fr k :
  (∀ j, s ≤ j → k ≠ frame_path d j) → store_frames fs0 d s fr !! k = fs0 !! k.
Proof.
  revert fs0 s. induction fr as [|f fr IH]; intros fs0 s Hk; [done|].
  cbn. rewrite IH by (intros j ?; apply Hk; lia).
  apply lookup_insert_ne. intros Heq. by apply (Hk s).
Qed.

(** The [i]-th frame emitted is stored under the [i]-th frame path. *)
Lemma store_frames_lookup_frame fs0 d s fr i f :
  fr !! i = Some f → store_frames fs0 d s fr !! frame_path d (s + i) = Some (File f).
Proof.
  revert fs0 s i. induction fr as [|f0 fr IH]; intros fs0 s [|i] Hi; try done.
  - cbn in Hi. injection Hi as ->. cbn. rewrite Nat.add_0_r.
    rewrite store_frames_lookup_later; [by rewrite lookup_insert_eq|].
    intros j Hj Heq. apply frame_path_inj in Heq. lia.
  - cbn in Hi. cbn [store_frames]. replace (s + S i) with (S s + i) by lia.
    by apply IH.
Qed.

(** Which paths hold something after the tool's frames are stored. *)
Lemma store_frames_is_Some fs0 d s fr k :
  is_Some (store_frames fs0 d s fr !! k)
  ↔ is_Some (fs0 !! k) ∨ ∃ i, s ≤ i < s + length fr ∧ k = frame_path d i.
Proof.
  revert fs0 s. induction fr as [|f fr IH]; intros fs0 s.
  - cbn. split; [auto|]. intros [?|(i & ? & _)]; [done|lia].
  - cbn [store_frames length]. rewrite IH. split.
    + intros [H|(i & ? & ->)].
      * destruct (decide (k = frame_path d s)) as [->|Hne].
        -- right. exists s. split; [lia|done].
        -- rewrite lookup_insert_ne in H by done. auto.
      * right. exists i. split; [lia|done].
    + intros [H|(i & Hi & ->)].
      * left. destruct (decide (frame_path d s = k)) as [->|Hne].
        -- by rewrite lookup_insert_eq.
        -- by rewrite lookup_insert_ne.
      * destruct (decide (i = s)) as [->|Hne].
        -- left. by rewrite lookup_insert_eq.
        -- right. exists i. split; [lia|done].
Qed.

(** ** From upload to listing *)

Section UploadThenList.

Variable uuid4_hex : nat → string.
Variable ffmpeg : list string → gmap string node → tool_run.
Variable float_repr : PyNum.pyfloat → string.

(** The job directory after an upload whose source was stored under a
    file name without separator, whatever the tool's exit status: the
    directory is there, the source file is gone, and every frame emitted is
    in place and among the images of the job, unless it was written to the
    path of the source file. *)
Lemma upload_video_job_state w filename payload mode threshold fs1 fs2 :
  let job_id := uuid4_hex (uuid_draws w) in
  let job_dir := os_path_join OUTPUT_ROOT job_id in
  let temp_path := os_path_join job_dir filename in
  let run := ffmpeg (ffmpeg_cmd float_repr temp_path job_dir mode threshold) fs2 in
  let up := upload_video uuid4_hex ffmpeg float_repr w filename payload mode threshold in
  entry_name job_id = true → has_sep filename = false →
  String.eqb mode "scene" || String.eqb mode "all" = true →
  makedirs (fs w) job_dir = inr fs1 →
  write_file fs1 temp_path payload = inr fs2 →
  fst up = (if (returncode run =? 0)%Z then Returned job_id
            else HTTPException 500 ("ffmpeg failed: " +:+ str_take 200 (stderr run)))
  ∧ fs (snd up) = delete temp_path (store_frames fs2 job_dir 1 (frames run))
  ∧ fs2 = <[temp_path := File payload]> fs1
  ∧ temp_path = job_dir +:+ "/" +:+ filename
  ∧ isdir (fs (snd up)) job_dir = true
  ∧ fs (snd up) !! temp_path = None
  ∧ (∀ i f, frames run !! i = Some f → frame_path job_dir (S i) ≠ temp_path →
       fs (snd up) !! frame_path job_dir (S i) = Some (File f)
       ∧ frame_name (S i) ∈ all_images_of (fs (snd up)) job_dir).
Proof.
  intros job_id job_dir temp_path run up Hj Hf Hmode Hmk Hwr.
  destruct (temp_path_plain _ _ job_id filename Hj Hf Hmk) as [Htemp Hlit].
  fold job_dir in Htemp, Hlit. fold temp_path in Htemp, Hlit.
  destruct (upload_video_after_store uuid4_hex ffmpeg float_repr
              w filename payload mode threshold fs1 fs2 Hmode Hmk Hlit Hwr)
    as (Hup & Hdir & Hne & Hfs2).
  fold job_id job_dir temp_path run in Hup. fold up in Hup.
  pose proof (Hdir : fs1 !! job_dir = Some Dir) as Hdir'.
  pose proof (Hne : temp_path ≠ job_dir) as Hne'. clear Hdir Hne.
  destruct (job_dir_plain job_id Hj) as (Hjd & Hnz & Hsl).
  pose proof (Hjd : job_dir = "output/" +:+ job_id) as Hjd'. clear Hjd.
  rewrite <- Hjd' in Hnz, Hsl.
  assert (fs (snd up) = delete temp_path (store_frames fs2 job_dir 1 (frames run))) as Hfs.
  { by rewrite Hup. }
  assert (∀ i f, frames run !! i = Some f → frame_path job_dir (S i) ≠ temp_path →
            fs (snd up) !! frame_path job_dir (S i) = Some (File f)) as Hframes.
  { intros i f Hi Hnt. rewrite Hfs, lookup_delete_ne by done.
    by apply (store_frames_lookup_frame fs2 job_dir 1). }
  split_and!; [by rewrite Hup|done|done|done| | |].
  - rewrite Hfs. unfold isdir. rewrite lookup_delete_ne by done.
    rewrite store_frames_keeps_dir by done.
    rewrite Hfs2, lookup_insert_ne by done. by rewrite Hdir'.
  - rewrite Hfs. apply lookup_delete_eq.
  - intros i f Hi Hnt. split; [by apply Hframes|].
    rewrite all_images_of_perm. apply elem_of_jpg_names.
    destruct (frame_name_entry (S i)) as (He & Hend & _). split_and!; [done..|].
    rewrite <- frame_path_plain by done. rewrite (Hframes i f Hi Hnt). by eexists.
Qed.

(** The images of a fresh job after an upload are the frame names
    [1 .. k], in that order. *)
Lemma upload_video_all_images w filename payload mode threshold fs1 fs2 :
  let job_id := uuid4_hex (uuid_draws w) in
  let job_dir := os_path_join OUTPUT_ROOT job_id in
  let temp_path := os_path_join job_dir filename in
  let run := ffmpeg (ffmpeg_cmd float_repr temp_path job_dir mode threshold) fs2 in
  let up := upload_video uuid4_hex ffmpeg float_repr w filename payload mode threshold in
  entry_name job_id = true →
  has_sep filename = false → endswith filename ".jpg" = false →
  (∀ rel, fs w !! (job_dir +:+ "/" +:+ rel) = None) →
  String.eqb mode "scene" || String.eqb mode "all" = true →
  makedirs (fs w) job_dir = inr fs1 →
  write_file fs1 temp_path payload = inr fs2 →
  length (frames run) < 10 ^ 6 →
  all_images_of (fs (snd up)) job_dir = frame_name <$> seq 1 (length (frames run)).
Proof.
  intros job_id job_dir temp_path run up Hj Hf Hjpg Hfresh Hmode Hmk Hwr Hk.
  destruct (upload_video_job_state w filename payload mode threshold fs1 fs2
              Hj Hf Hmode Hmk Hwr) as (_ & Hfs & Hfs2 & Htemp & _).
  fold job_id job_dir temp_path run in Hfs, Hfs2, Htemp. fold up in Hfs.
  pose proof (makedirs_footprint _ _ _ Hmk) as Hfp.
  destruct (job_dir_plain job_id Hj) as (Hjd & Hnz & Hsl).
  pose proof (Hjd : job_dir = "output/" +:+ job_id) as Hjd'. clear Hjd.
  rewrite <- Hjd' in Hnz, Hsl.
  rewrite Hfs.
  apply (StronglySorted_unique String.le).
  { apply all_images_of_sorted. }
  { apply frame_names_sorted. lia. }
  rewrite all_images_of_perm.
  apply NoDup_Permutation; [apply NoDup_jpg_names|apply frame_names_NoDup; lia|].
  intros n. rewrite elem_of_jpg_names, list_elem_of_fmap. split.
  - intros (_ & _ & Hsome).
    destruct (decide (job_dir +:+ "/" +:+ n = temp_path)) as [Heq|Hnt].
    { rewrite Heq, lookup_delete_eq in Hsome. by destruct Hsome. }
    rewrite lookup_delete_ne in Hsome by done.
    apply store_frames_is_Some in Hsome as [Hsome|(i & Hi & Heq)].
    + exfalso. rewrite Hfs2, lookup_insert_ne in Hsome by done.
      destruct (Hfp (job_dir +:+ "/" +:+ n)) as [Hsame|[Heq|Hanc]].
      * rewrite Hsame, Hfresh in Hsome. by destruct Hsome.
      * by apply entry_path_neq_dir in Heq.
      * apply ancestors_length in Hanc. rewrite !string_app_length in Hanc. lia.
    + rewrite frame_path_plain in Heq by done.
      do 2 apply (inj (String.app _)) in Heq. subst n.
      exists i. split; [done|]. apply elem_of_seq. lia.
  - intros (i & -> & [? ?]%elem_of_seq).
    destruct (frame_name_entry i) as (He & Hend & _). split_and!; [done..|].
    rewrite lookup_delete_ne; cycle 1.
    { rewrite Htemp. intros Heq. do 2 apply (inj (String.app _)) in Heq.
      congruence. }
    apply store_frames_is_Some. right. exists i. split; [lia|].
    symmetry. by apply frame_path_plain.
Qed.

(** C3 (as amended). When the extraction tool exits with a non-zero status
    (source stored in the job directory under a file name without
    separator) the upload answers HTTP 500 and returns no job identity, yet
    the job directory stays in place: the source file is removed, and every
    frame the tool wrote is kept with its content, except a frame written
    to the very path of the source file.  A listing request for that job
    identity is then answered as for any existing job, with the [.jpg]
    entries of the directory, the kept frames among them; in a directory
    that held nothing before, and for a source not named [*.jpg], these are
    exactly the frames written, in order. *)
Theorem upload_failure_keeps_job_listed w filename payload mode threshold fs1 fs2 pg limit :
  let job_id := uuid4_hex (uuid_draws w) in
  let job_dir := os_path_join OUTPUT_ROOT job_id in
  let temp_path := os_path_join job_dir filename in
  let run := ffmpeg (ffmpeg_cmd float_repr temp_path job_dir mode threshold) fs2 in
  let up := upload_video uuid4_hex ffmpeg float_repr w filename payload mode threshold in
  let names := all_images_of (fs (snd up)) job_dir in
  let count := Z.of_nat (length names) in
  entry_name job_id = true → has_sep filename = false →
  String.eqb mode "scene" || String.eqb mode "all" = true →
  makedirs (fs w) job_dir = inr fs1 →
  write_file fs1 temp_path payload = inr fs2 →
  returncode run ≠ 0%Z →
  (1 ≤ pg)%Z → (1 ≤ limit ≤ 500)%Z → (count < 2 ^ 52)%Z →
  status_of (fst up) = 500%Z
  ∧ (∀ id, fst up ≠ Returned id)
  ∧ isdir (fs (snd up)) job_dir = true
  ∧ fs (snd up) !! temp_path = None
  ∧ (∀ i f, frames run !! i = Some f → frame_path job_dir (S i) ≠ temp_path →
       fs (snd up) !! frame_path job_dir (S i) = Some (File f)
       ∧ frame_name (S i) ∈ names)
  ∧ list_images (snd up) job_id pg limit
    = (Returned
         (mkListing
            (image_url job_id <$>
               take (Z.to_nat limit) (drop (Z.to_nat ((pg - 1) * limit)) names))
            pg (Z.max 1 (PyNum.ceil_div count limit)) count limit),
       snd up)
  ∧ ((∀ rel, fs w !! (job_dir +:+ "/" +:+ rel) = None) →
     endswith filename ".jpg" = false → length (frames run) < 10 ^ 6 →
     names = frame_name <$> seq 1 (length (frames run))).
Proof.
  intros job_id job_dir temp_path run up names count Hj Hf Hmode Hmk Hwr Hrc Hp Hl Hn.
  destruct (upload_video_job_state w filename payload mode threshold fs1 fs2
              Hj Hf Hmode Hmk Hwr) as (Hup & _ & _ & _ & Hd & Hgone & Hframes).
  fold job_id job_dir temp_path run in Hup, Hd, Hgone, Hframes.
  fold up in Hup, Hd, Hgone, Hframes. fold names in Hframes.
  destruct (Z.eqb_spec (returncode run) 0) as [|_]; [done|].
  split_and!; [by rewrite Hup|by rewrite Hup|done|done|done| |].
  - by apply list_images_returns.
  - intros Hfresh Hjpg Hk.
    by apply (upload_video_all_images w filename payload mode threshold fs1 fs2).
Qed.

(** X11. Upload, then list: after a successful upload into a fresh job
    directory (plain job identity, a file name without separator that
    does not end in [.jpg], fewer than one million frames) the listing of
    the new job returns exactly the frames the tool emitted, in extraction
    order, and [total] is their number. *)
Theorem upload_video_then_listing w filename payload mode threshold fs1 fs2 pg limit :
  let job_id := uuid4_hex (uuid_draws w) in
  let job_dir := os_path_join OUTPUT_ROOT job_id in
  let temp_path := os_path_join job_dir filename in
  let run := ffmpeg (ffmpeg_cmd float_repr temp_path job_dir mode threshold) fs2 in
  let k := length (frames run) in
  let up := upload_video uuid4_hex ffmpeg float_repr w filename payload mode threshold in
  entry_name job_id = true →
  has_sep filename = false → endswith filename ".jpg" = false →
  (∀ rel, fs w !! (job_dir +:+ "/" +:+ rel) = None) →
  String.eqb mode "scene" || String.eqb mode "all" = true →
  makedirs (fs w) job_dir = inr fs1 →
  write_file fs1 temp_path payload = inr fs2 →
  returncode run = 0%Z → k < 10 ^ 6 →
  (1 ≤ pg)%Z → (1 ≤ limit ≤ 500)%Z →
  fst up = Returned job_id
  ∧ list_images (snd up) job_id pg limit
    = (Returned
         (mkListing
            (image_url job_id <$>
               take (Z.to_nat limit)
                 (drop (Z.to_nat ((pg - 1) * limit)) (frame_name <$> seq 1 k)))
            pg (Z.max 1 (PyNum.ceil_div (Z.of_nat k) limit)) (Z.of_nat k) limit),
       snd up).
Proof.
  intros job_id job_dir temp_path run k up Hj Hf Hjpg Hfresh Hmode Hmk Hwr Hrc Hk Hp Hl.
  pose proof (upload_video_all_images w filename payload mode threshold fs1 fs2
                Hj Hf Hjpg Hfresh Hmode Hmk Hwr Hk) as Hall.
  fold job_id job_dir temp_path run in Hall. fold up in Hall. fold k in Hall.
  destruct (upload_video_job_state w filename payload mode threshold fs1 fs2
              Hj Hf Hmode Hmk Hwr) as (Hup & _ & _ & _ & Hd & _).
  fold job_id job_dir temp_path run in Hup, Hd. fold up in Hup, Hd.
  split.
  { rewrite Hup. by rewrite Hrc. }
  assert (Z.of_nat k < 2 ^ 52)%Z.
  { apply Nat2Z.inj_lt in Hk. rewrite Nat2Z.inj_pow in Hk.
    change (Z.of_nat 10 ^ Z.of_nat 6)%Z with 1000000%Z in Hk.
    change (2 ^ 52)%Z with 4503599627370496%Z. lia. }
  rewrite list_images_returns; [|done|done|done|].
  - fold job_dir. by rewrite Hall, length_fmap, length_seq.
  - fold job_dir. by rewrite Hall, length_fmap, length_seq.
Qed.

End UploadThenList.

(** ** Concrete runs of the further properties *)

Lemma list_images_pages_partition_witness :
  concat ((λ i, page_images (fst (list_images ten_frames_world "job10" (Z.of_nat (S i)) 3)))
            <$> seq 0 4)
  = image_url "job10" <$> all_images_of (fs ten_frames_world) "output/job10"
  ∧ NoDup (image_url "job10" <$> all_images_of (fs ten_frames_world) "output/job10").
Proof.
  apply (list_images_pages_partition ten_frames_world "job10" 3);
    [vm_compute; reflexivity | lia | vm_compute; reflexivity].
Defined.

Lemma list_images_page_size_witness :
  let size := Z.of_nat (length (page_images (fst (list_images ten_frames_world "job10" 4 3)))) in
  (size = Z.max 0 (Z.min 3 (10 - (4 - 1) * 3))
   ∧ (4 < 4 → size = 3)
   ∧ (0 < size ↔ 4 ≤ 4 ∧ 0 < 10))%Z.
Proof.
  apply (list_images_page_size ten_frames_world "job10" 4 3);
    [vm_compute; reflexivity | lia | lia | vm_compute; reflexivity].
Defined.

Lemma upload_video_error_detail_witness :
  (500%Z = 400%Z ∧ "ffmpeg failed: Conversion failed!" = "mode must be 'scene' or 'all'")
  ∨ (500%Z = 500%Z
     ∧ String.length "ffmpeg failed: Conversion failed!" ≤ 215
     ∧ ∃ cmd fs0 rest,
         "ffmpeg failed: Conversion failed!"
           = "ffmpeg failed: " +:+ str_take 200 (stderr (failing_tool cmd fs0))
         ∧ stderr (failing_tool cmd fs0) = str_take 200 (stderr (failing_tool cmd fs0)) +:+ rest
         ∧ returncode (failing_tool cmd fs0) ≠ 0%Z).
Proof.
  apply (upload_video_error_detail sample_uuid failing_tool sample_repr empty_world
           "clip.mp4" [Byte.x00] "scene" sample_threshold).
  vm_compute. reflexivity.
Defined.

Lemma upload_video_keeps_other_listings_witness :
  fst (list_images
         (snd (upload_video sample_uuid three_frame_tool sample_repr ten_frames_world
                 "clip.mp4" [Byte.x00] "all" sample_threshold))
         "job10" 1 50)
  = fst (list_images ten_frames_world "job10" 1 50).
Proof.
  apply (upload_video_keeps_other_listings sample_uuid three_frame_tool sample_repr
           ten_frames_world "clip.mp4" [Byte.x00] "all" sample_threshold "job10" 1 50);
    [reflexivity | reflexivity | discriminate | reflexivity].
Defined.

Lemma upload_video_absolute_filename_removes_witness :
  let up := upload_video sample_uuid three_frame_tool sample_repr server_world
              "/srv/keep.db" [Byte.x00] "all" sample_threshold in
  fs (snd up) !! "/srv/keep.db" = None
  ∧ (status_of (fst up) = 200%Z ∨ status_of (fst up) = 500%Z).
Proof.
  apply (upload_video_absolute_filename_removes sample_uuid three_frame_tool sample_repr
           server_world "/srv/keep.db" [Byte.x00] "all" sample_threshold [Byte.x2a]
           (<[ sample_job_dir := Dir ]> (fs server_world)));
    [reflexivity | reflexivity | reflexivity | vm_compute; reflexivity
    | vm_compute; reflexivity | vm_compute; reflexivity].
Defined.

Lemma upload_video_empty_filename_witness :
  upload_video sample_uuid three_frame_tool sample_repr empty_world
    "" [Byte.x00] "all" sample_threshold
  = (Escaped IsADirectoryError, mkWorld sample_fs1 1)
  ∧ isdir sample_fs1 (os_path_join OUTPUT_ROOT sample_job) = true.
Proof.
  apply (upload_video_empty_filename sample_uuid three_frame_tool sample_repr
           empty_world [Byte.x00] "all" sample_threshold sample_fs1);
    [reflexivity | vm_compute; reflexivity].
Defined.

Lemma download_zip_keeps_listings_witness :
  fst (list_images (snd (download_zip sample_zip mixed_world "mixed")) "mixed" 1 50)
  = fst (list_images mixed_world "mixed" 1 50).
Proof.
  apply (download_zip_keeps_listings sample_zip mixed_world "mixed" "mixed" 1 50);
    reflexivity.
Defined.

Lemma download_zip_never_stale_witness :
  let job_dir := os_path_join OUTPUT_ROOT "mixed" in
  let zip_path := job_dir +:+ ".zip" in
  let w1 := snd (download_zip sample_zip mixed_world "mixed") in
  let w2 := mkWorld (<[job_dir +:+ "/" +:+ "frame-000003.jpg" := File [Byte.x05]]> (fs w1))
              (uuid_draws w1) in
  fst (download_zip sample_zip w2 "mixed")
  = Returned (FileResponse zip_path ("mixed" +:+ ".zip") "application/zip"
                (Some (sample_zip (<["frame-000003.jpg" := File [Byte.x05]]>
                                     (dir_contents (fs mixed_world) job_dir))))).
Proof.
  apply (download_zip_never_stale sample_zip mixed_world "mixed" "frame-000003.jpg" [Byte.x05]);
    [vm_compute; reflexivity | vm_compute; discriminate].
Defined.

Lemma upload_video_then_listing_witness :
  let up := upload_video sample_uuid three_frame_tool sample_repr empty_world
              "clip.mp4" [Byte.x00] "all" sample_threshold in
  fst up = Returned sample_job
  ∧ list_images (snd up) sample_job 1 2
    = (Returned
         (mkListing
            (image_url sample_job <$>
               take (Z.to_nat 2) (drop (Z.to_nat ((1 - 1) * 2)) (frame_name <$> seq 1 3)))
            1 (Z.max 1 (PyNum.ceil_div (Z.of_nat 3) 2)) (Z.of_nat 3) 2),
       snd up).
Proof.
  apply (upload_video_then_listing sample_uuid three_frame_tool sample_repr empty_world
           "clip.mp4" [Byte.x00] "all" sample_threshold sample_fs1 sample_fs2 1 2);
    [ reflexivity | reflexivity | reflexivity
    | intros rel; apply lookup_singleton_ne; intros H; vm_compute in H; discriminate H
    | reflexivity | vm_compute; reflexivity | vm_compute; reflexivity
    | reflexivity
    | apply (Nat.lt_le_trans _ (10 ^ 1)); [cbn; lia | apply Nat.pow_le_mono_r; lia]
    | lia | lia ].
Defined.

(** The listing of that upload, evaluated: two of three frames on page 1. *)
Example upload_video_then_listing_run :
  fst (list_images
         (snd (upload_video sample_uuid three_frame_tool sample_repr empty_world
                 "clip.mp4" [Byte.x00] "all" sample_threshold))
         sample_job 1 2)
  = Returned (mkListing
                [ "/output/0123456789abcdef0123456789abcdef/frame-000001.jpg";
                  "/output/0123456789abcdef0123456789abcdef/frame-000002.jpg" ]
                1 2 3 2).
Proof. vm_compute. reflexivity. Qed.

Lemma upload_failure_keeps_job_listed_witness :
  let job_id := sample_job in
  let job_dir := os_path_join OUTPUT_ROOT job_id in
  let temp_path := os_path_join job_dir "clip.mp4" in
  let run := failing_tool
               (ffmpeg_cmd sample_repr temp_path job_dir "scene" sample_threshold)
               sample_fs2 in
  let up := upload_video sample_uuid failing_tool sample_repr empty_world
              "clip.mp4" [Byte.x00] "scene" sample_threshold in
  let names := all_images_of (fs (snd up)) job_dir in
  let count := Z.of_nat (length names) in
  status_of (fst up) = 500%Z
  ∧ (∀ id, fst up ≠ Returned id)
  ∧ isdir (fs (snd up)) job_dir = true
  ∧ fs (snd up) !! temp_path = None
  ∧ (∀ i f, frames run !! i = Some f → frame_path job_dir (S i) ≠ temp_path →
       fs (snd up) !! frame_path job_dir (S i) = Some (File f)
       ∧ frame_name (S i) ∈ names)
  ∧ list_images (snd up) job_id 1 50
    = (Returned
         (mkListing
            (image_url job_id <$>
               take (Z.to_nat 50) (drop (Z.to_nat ((1 - 1) * 50)) names))
            1 (Z.max 1 (PyNum.ceil_div count 50)) count 50),
       snd up)
  ∧ ((∀ rel, fs empty_world !! (job_dir +:+ "/" +:+ rel) = None) →
     endswith "clip.mp4" ".jpg" = false → length (frames run) < 10 ^ 6 →
     names = frame_name <$> seq 1 (length (frames run))).
Proof.
  apply (upload_failure_keeps_job_listed sample_uuid failing_tool sample_repr
           empty_world "clip.mp4" [Byte.x00] "scene" sample_threshold
           sample_fs1 sample_fs2 1 50);
    [ reflexivity | reflexivity | reflexivity
    | vm_compute; reflexivity | vm_compute; reflexivity
    | vm_compute; discriminate | lia | lia | vm_compute; reflexivity ].
Defined.

Lemma post_upload_footprint_witness :
  let job_id := sample_job in
  let job_dir := os_path_join OUTPUT_ROOT job_id in
  let up := post_upload sample_uuid three_frame_tool sample_repr server_world
              (Some ("clip.mp4", [Byte.x00])) (Some "") FloatAbsent in
  let m := form_str "scene" (Some "") in
  (∀ k, fs (snd up) !! k = fs server_world !! k
        ∨ k = job_dir ∨ k ∈ ancestors job_dir
        ∨ k = job_dir +:+ "/" +:+ "clip.mp4"
        ∨ ∃ n, k = frame_path job_dir n)
  ∧ uuid_draws (snd up)
    = (if form_float_ok FloatAbsent && (String.eqb m "scene" || String.eqb m "all")
       then S (uuid_draws server_world) else uuid_draws server_world)
  ∧ post_upload sample_uuid three_frame_tool sample_repr server_world None
      (Some "") FloatAbsent
    = (RequestValidationError, server_world).
Proof.
  apply (post_upload_footprint sample_uuid three_frame_tool sample_repr server_world
           "clip.mp4" [Byte.x00] (Some "") FloatAbsent);
    reflexivity.
Defined.

(** File names that are not plain names.  With [..] in it the name leaves
    the job directory: the source is written over [output/x.mp4] and the
    cleanup removes that file.  The names [.] and [..] are directories, and
    a name with a null character is refused: the upload fails before the
    tool runs and leaves the job directory behind. *)
Example upload_video_names_resolved :
  let w := mkWorld (<[ "output/x.mp4" := File [Byte.x2a] ]> (fs empty_world)) 0 in
  let up name := upload_video sample_uuid one_frame_tool sample_repr w
                   name [Byte.x00] "all" sample_threshold in
  fst (up "../x.mp4") = Returned sample_job
  ∧ fs (snd (up "../x.mp4")) !! "output/x.mp4" = None
  ∧ fs (snd (up "./clip.mp4")) !! (sample_job_dir +:+ "/frame-000001.jpg")
    = Some (File [Byte.xff; Byte.xd8])
  ∧ fs (snd (up "./clip.mp4")) !! (sample_job_dir +:+ "/clip.mp4") = None
  ∧ up "." = (Escaped IsADirectoryError, mkWorld (<[ sample_job_dir := Dir ]> (fs w)) 1)
  ∧ up ".." = (Escaped IsADirectoryError, mkWorld (<[ sample_job_dir := Dir ]> (fs w)) 1)
  ∧ fst (up "missing/clip.mp4") = Escaped FileNotFoundError
  ∧ fst (up (String Ascii.zero "clip.mp4")) = Escaped ValueError.
Proof. vm_compute. by split_and!. Qed.
